(** * CheckTLfromSQL: trustline reconciliation (check_tl.py)

    A shallow embedding of [check_tl.py].  The script reads wallets from a
    SQLite table, asks the XRP ledger (through several JSON-RPC nodes, with
    retries) whether each wallet holds one given trustline, and moves the
    wallets without it to a second table; the wallets for which no node
    answered go through a retry table and a second pass.

    The ledger and the clock are the environment: a type class [Ledger]
    gives what a request returns and how the environment evolves.  The
    script itself is written in a state monad over [World]: the
    environment, the SQLite connection and the trace of the input/output
    events in the order the script produces them (requests with their
    responses, sleeps, log lines). *)

From Stdlib Require Import QArith.
From stdpp Require Import base option list gmap strings fin_maps.

Open Scope string_scope.
Open Scope Z_scope.
Open Scope list_scope.

(** ** Data *)

(** A JSON scalar, as found in the fields of a trustline entry. *)
Inductive JVal : Type :=
  | JNull
  | JBool (b : bool)
  | JNum (n : Z)
  | JStr (s : string).

#[global] Instance JVal_eq_dec : EqDecision JVal.
Proof. solve_decision. Defined.

(** One element of the ["lines"] array: a Python dict. *)
Abbreviation TrustLine := (gmap string JVal).

(** [response.result]: a dict; only its list-valued field ["lines"] is read. *)
Abbreviation Result := (gmap string (list TrustLine)).

(** What [client.request(req)] does: it raises, or returns a response whose
    [is_successful()] is the flag. *)
Inductive Response : Type :=
  | Raised
  | Replied (successful : bool) (result : Result).

(** [Balance REAL]: stored and copied, never computed with. *)
Abbreviation Balance := Q.

(** A row of [retry_queue] without its key; [tries INTEGER DEFAULT 0]
    has no [NOT NULL], so the column can hold NULL ([None]). *)
Record RetryRow : Type := mkRetryRow {
  rr_balance : Balance;
  rr_tries : option Z
}.

(** The three tables, each with [Wallet] as key. A table that does not
    exist yet and is created by [ensure_tables] is the empty map. *)
Record DB : Type := mkDB {
  tokens : gmap string Balance;
  tokens_missing_tl : gmap string Balance;
  retry_queue : gmap string RetryRow
}.

(** A [sqlite3] connection in the module's default mode: a data-changing
    statement works inside a transaction that stays open until
    [conn.commit()]; [committed] is what the file holds, [working] what
    the connection sees. *)
Record Conn : Type := mkConn {
  committed : DB;
  working : DB
}.

Inductive TableName : Type :=
  | AIRDROP_TABLE
  | MISSING_TL_TABLE
  | RETRY_QUEUE_TABLE.

Inductive Level : Type := INFO | WARNING | ERROR.

(** The log lines of the script, by the place that writes them. *)
Inductive LogLine : Type :=
  | TryingNode (wallet node : string)
  | AttemptNotSuccessful (wallet : string) (attempt : nat) (node : string)
  | AttemptRaised (wallet : string) (attempt : nat) (node : string)
  | NodeFailedAll (wallet node : string)
  | AllNodesFailed (wallet : string)
  | NoTrustlineMoving (wallet : string)
  | NotConfirmedSecondPass (wallet : string)
  | AddingToRetry (wallet : string)
  | FoundOnRetry (wallet : string)
  | StillMissingMoving (wallet : string)
  | FirstPassStart
  | FirstPassDone (moved_missing moved_retry : nat)
  | SecondPassStart
  | SecondPassDone (moved_missing : nat)
  | AllDone.

Inductive Event : Type :=
  | Requested (node wallet : string) (resp : Response)
  | Slept (seconds : Q)
  | Logged (level : Level) (line : LogLine).

(** ** Configuration *)

Definition NODES : list string :=
  [ "https://xrplcluster.com/";
    "https://s2.ripple.com:51234/";
    "https://xrpl.link/" ].

Definition ISSUER_OF_TOKEN : string := "rJ9uU9jKxNcsNQM2CLKUhPxNn8P4xmhDVq".
Definition CURRENCY_HEX : string := "4241594E414E4100000000000000000000000000".

Definition max_retries_per_node : nat := 2.
Definition base_backoff_seconds : Z := 2.

(** ** The environment *)

Class Ledger (Net : Type) : Type := {
  (** [JsonRpcClient(node).request(AccountLines(account=wallet,
      ledger_index="validated"))] *)
  request : string -> string -> Net -> Response * Net;
  (** the environment after [time.sleep(seconds)] *)
  elapse : Q -> Net -> Net
}.

Record World (Net : Type) : Type := mkWorld {
  net : Net;
  conn : Conn;
  trace : list Event
}.
Arguments mkWorld {Net} _ _ _.
Arguments net {Net} _.
Arguments conn {Net} _.
Arguments trace {Net} _.

(** ** The state monad of the script *)

Definition M (Net A : Type) : Type := World Net -> A * World Net.

#[global] Instance M_ret {Net} : MRet (M Net) := fun A a w => (a, w).

#[global] Instance M_bind {Net} : MBind (M Net) :=
  fun A B k m w => let (a, w') := m w in k a w'.

Section Script.
Context {Net : Type} `{Ledger Net}.

Definition emit (e : Event) : M Net unit :=
  fun w => (tt, mkWorld (net w) (conn w) (trace w ++ [e])).

Definition log (lvl : Level) (line : LogLine) : M Net unit :=
  emit (Logged lvl line).

Definition sleep (seconds : Q) : M Net unit :=
  fun w => (tt, mkWorld (elapse seconds (net w)) (conn w) (trace w ++ [Slept seconds])).

Definition client_request (node wallet : string) : M Net Response :=
  fun w => let (resp, n') := request node wallet (net w) in
           (resp, mkWorld n' (conn w) (trace w ++ [Requested node wallet resp])).

(** [cursor.execute] of a data-changing statement *)
Definition execute (stmt : DB -> DB) : M Net unit :=
  fun w => (tt, mkWorld (net w)
                  (mkConn (committed (conn w)) (stmt (working (conn w))))
                  (trace w)).

(** [cursor.execute(SELECT ...).fetchall()] *)
Definition query {A} (sel : DB -> A) : M Net A :=
  fun w => (sel (working (conn w)), w).

(** [conn.commit()] *)
Definition commit : M Net unit :=
  fun w => (tt, mkWorld (net w)
                  (mkConn (working (conn w)) (working (conn w)))
                  (trace w)).

(** ** fetch_trustlines_with_failover *)

(** [response.result.get("lines", [])] *)
Definition result_lines (result : Result) : list TrustLine :=
  default [] (result !! "lines").

(** The retry loop of one node, over the attempt numbers still to run.
    [Some lines] is the [return lines] inside the loop, [None] the loop
    running to its end. *)
Fixpoint attempt_loop (wallet node : string) (attempts : list nat)
  : M Net (option (list TrustLine)) :=
  match attempts with
  | [] => mret None
  | attempt :: rest =>
      response ← client_request node wallet;
      match response with
      | Replied true result => mret (Some (result_lines result))
      | Replied false _ =>
          log WARNING (AttemptNotSuccessful wallet attempt node);;
          sleep (inject_Z (base_backoff_seconds * Z.of_nat attempt));;
          attempt_loop wallet node rest
      | Raised =>
          log ERROR (AttemptRaised wallet attempt node);;
          sleep (inject_Z (base_backoff_seconds * Z.of_nat attempt));;
          attempt_loop wallet node rest
      end
  end.

(** The loop over the nodes still to try. *)
Fixpoint node_loop (wallet : string) (nodes : list string)
  : M Net (option (list TrustLine)) :=
  match nodes with
  | [] =>
      log ERROR (AllNodesFailed wallet);;
      mret None
  | node_url :: rest =>
      log INFO (TryingNode wallet node_url);;
      r ← attempt_loop wallet node_url (seq 1 max_retries_per_node);
      match r with
      | Some lines => mret (Some lines)
      | None =>
          log WARNING (NodeFailedAll wallet node_url);;
          node_loop wallet rest
      end
  end.

Definition fetch_trustlines_with_failover (wallet : string)
  : M Net (option (list TrustLine)) :=
  node_loop wallet NODES.

(** ** has_trustline *)

(** [line.get("account") == ISSUER_OF_TOKEN and
     line.get("currency") == CURRENCY_HEX] *)
Definition line_matches (line : TrustLine) : bool :=
  bool_decide (line !! "account" = Some (JStr ISSUER_OF_TOKEN))
  && bool_decide (line !! "currency" = Some (JStr CURRENCY_HEX)).

(** The [for line in lines] loop with its [return True], and the
    [return False] after it. *)
Fixpoint scan_lines (lines : list TrustLine) : bool :=
  match lines with
  | [] => false
  | line :: rest => if line_matches line then true else scan_lines rest
  end.

(** [Optional[bool]]: [Some true], [Some false], [None]. *)
Definition has_trustline (wallet : string) : M Net (option bool) :=
  lines ← fetch_trustlines_with_failover wallet;
  match lines with
  | None => mret None
  | Some lines => mret (Some (scan_lines lines))
  end.

(** ** SQL statements *)

(** [INSERT OR REPLACE INTO tokens_missing_tl (Wallet, Balance) VALUES (?, ?)] *)
Definition insert_or_replace_missing (wallet : string) (balance : Balance)
  (db : DB) : DB :=
  mkDB (tokens db) (<[wallet := balance]> (tokens_missing_tl db)) (retry_queue db).

(** [SELECT tries FROM retry_queue WHERE Wallet = ?] as a scalar subquery:
    NULL when there is no such row, and NULL when the row holds NULL. *)
Definition select_tries (wallet : string) (db : DB) : option Z :=
  retry_queue db !! wallet ≫= rr_tries.

(** [INSERT OR REPLACE INTO retry_queue (Wallet, Balance, tries)
     VALUES (?, ?, COALESCE((SELECT tries ...), 0))] *)
Definition insert_or_replace_retry (wallet : string) (balance : Balance)
  (db : DB) : DB :=
  mkDB (tokens db) (tokens_missing_tl db)
       (<[wallet := mkRetryRow balance (Some (default 0 (select_tries wallet db)))]>
          (retry_queue db)).

(** [DELETE FROM {table_name} WHERE Wallet = ?] *)
Definition delete_from (table_name : TableName) (wallet : string) (db : DB) : DB :=
  match table_name with
  | AIRDROP_TABLE =>
      mkDB (delete wallet (tokens db)) (tokens_missing_tl db) (retry_queue db)
  | MISSING_TL_TABLE =>
      mkDB (tokens db) (delete wallet (tokens_missing_tl db)) (retry_queue db)
  | RETRY_QUEUE_TABLE =>
      mkDB (tokens db) (tokens_missing_tl db) (delete wallet (retry_queue db))
  end.

(** [SELECT Wallet, Balance FROM {table_name}], in the order of the store. *)
Definition select_wallet_balance (table_name : TableName) (db : DB)
  : list (string * Balance) :=
  match table_name with
  | AIRDROP_TABLE => map_to_list (tokens db)
  | MISSING_TL_TABLE => map_to_list (tokens_missing_tl db)
  | RETRY_QUEUE_TABLE => prod_map id rr_balance <$> map_to_list (retry_queue db)
  end.

(** [SELECT Wallet, Balance, tries FROM retry_queue] *)
Definition select_retry_queue (db : DB) : list (string * RetryRow) :=
  map_to_list (retry_queue db).

(** ** The two passes *)

(** A [for row in rows] loop that carries the local counters. *)
Fixpoint for_rows {R A : Type} (body : A -> R -> M Net A) (acc : A)
  (rows : list R) : M Net A :=
  match rows with
  | [] => mret acc
  | row :: rest => acc' ← body acc row; for_rows body acc' rest
  end.

(** The body of the loop of [process_Wallets_table]; the counters are
    [(Wallets_moved_missing, Wallets_moved_retry)]. *)
Definition wallets_table_body (table_name : TableName) (second_pass : bool)
  (counts : nat * nat) (row : string * Balance) : M Net (nat * nat) :=
  let '(Wallet, Bal) := row in
  let '(Wallets_moved_missing, Wallets_moved_retry) := counts in
  tl_status ← has_trustline Wallet;
  sleep (1 # 5);;
  match tl_status with
  | Some true =>
      mret (Wallets_moved_missing, Wallets_moved_retry)
  | Some false =>
      log INFO (NoTrustlineMoving Wallet);;
      execute (insert_or_replace_missing Wallet Bal);;
      execute (delete_from table_name Wallet);;
      mret (S Wallets_moved_missing, Wallets_moved_retry)
  | None =>
      if second_pass then
        log INFO (NotConfirmedSecondPass Wallet);;
        execute (insert_or_replace_missing Wallet Bal);;
        execute (delete_from table_name Wallet);;
        mret (S Wallets_moved_missing, Wallets_moved_retry)
      else
        log WARNING (AddingToRetry Wallet);;
        execute (insert_or_replace_retry Wallet Bal);;
        execute (delete_from table_name Wallet);;
        mret (Wallets_moved_missing, S Wallets_moved_retry)
  end.

Definition process_Wallets_table (table_name : TableName) (second_pass : bool)
  : M Net (nat * nat) :=
  rows ← query (select_wallet_balance table_name);
  counts ← for_rows (wallets_table_body table_name second_pass) (0%nat, 0%nat) rows;
  commit;;
  mret counts.

(** The body of the loop of [process_retry_queue]. *)
Definition retry_queue_body (Wallets_moved_missing : nat)
  (row : string * RetryRow) : M Net nat :=
  let '(Wallet, r) := row in
  tl_status ← has_trustline Wallet;
  sleep (1 # 5);;
  match tl_status with
  | Some true =>
      log INFO (FoundOnRetry Wallet);;
      execute (delete_from RETRY_QUEUE_TABLE Wallet);;
      mret Wallets_moved_missing
  | Some false | None =>
      log INFO (StillMissingMoving Wallet);;
      execute (insert_or_replace_missing Wallet (rr_balance r));;
      execute (delete_from RETRY_QUEUE_TABLE Wallet);;
      mret (S Wallets_moved_missing)
  end.

Definition process_retry_queue : M Net nat :=
  rows ← query select_retry_queue;
  moved ← for_rows retry_queue_body 0%nat rows;
  commit;;
  mret moved.

(** ** main *)

(** Both [CREATE TABLE IF NOT EXISTS] leave the maps as they are. *)
Definition ensure_tables : M Net unit := commit.

(** [conn.close()]: what was not committed is lost. *)
Definition close : M Net unit :=
  fun w => (tt, mkWorld (net w)
                  (mkConn (committed (conn w)) (committed (conn w)))
                  (trace w)).

(** [main] up to the end of the first pass; it returns
    [(moved_missing, moved_retry)]. *)
Definition main_first_pass : M Net (nat * nat) :=
  ensure_tables;;
  log INFO FirstPassStart;;
  counts ← process_Wallets_table AIRDROP_TABLE false;
  log INFO (FirstPassDone counts.1 counts.2);;
  mret counts.

(** The body of [if moved_retry > 0:]. *)
Definition main_second_pass : M Net unit :=
  log INFO SecondPassStart;;
  moved_missing_2 ← process_retry_queue;
  log INFO (SecondPassDone moved_missing_2).

Definition main : M Net unit :=
  counts ← main_first_pass;
  (if (0 <? counts.2)%nat then main_second_pass else mret tt);;
  close;;
  log INFO AllDone.

(** The first pass and the second pass stopped from outside after [k]
    wallets: the loop has run over the first [k] rows and nothing after
    the loop has. *)
Definition process_Wallets_table_killed (table_name : TableName)
  (second_pass : bool) (k : nat) : M Net (nat * nat) :=
  rows ← query (select_wallet_balance table_name);
  for_rows (wallets_table_body table_name second_pass) (0%nat, 0%nat) (take k rows).

Definition process_retry_queue_killed (k : nat) : M Net nat :=
  rows ← query select_retry_queue;
  for_rows retry_queue_body 0%nat (take k rows).

End Script.

(** The three outcomes under the names the specification uses. *)
Abbreviation Present := (Some true) (only parsing).
Abbreviation Absent := (Some false) (only parsing).
Abbreviation Indeterminate := (@None bool) (only parsing).

(** ** Reading a trace *)

(** An attempt that did not succeed: an exception, or a response whose
    [is_successful()] is false. *)
Definition failed (resp : Response) : bool :=
  match resp with
  | Replied true _ => false
  | Replied false _ => true
  | Raised => true
  end.

(** The requests of a trace, in order: the node asked and what came back. *)
Definition calls_of (evs : list Event) : list (string * Response) :=
  evs ≫= (fun e => match e with Requested node _ resp => [(node, resp)] | _ => [] end).

(** The sleeps of a trace, in order. *)
Definition sleeps_of (evs : list Event) : list Q :=
  evs ≫= (fun e => match e with Slept s => [s] | _ => [] end).

(** The event every call of [fetch_trustlines_with_failover] for [wallet]
    starts with, and which is written nowhere else: the log line for the
    first node of [NODES]. *)
Definition is_fetch_start (wallet : string) (e : Event) : bool :=
  match e with
  | Logged INFO (TryingNode w node) =>
      bool_decide (w = wallet) && bool_decide (Some node = head NODES)
  | _ => false
  end.

(** How often [wallet] was classified in a trace. *)
Definition fetches_of (wallet : string) (evs : list Event) : nat :=
  length (filter (fun e => is_fetch_start wallet e = true) evs).

(** Every node of [nodes], in order, as often as one node is tried. *)
Definition plan_of (nodes : list string) : list string :=
  nodes ≫= (fun node => replicate max_retries_per_node node).

(** The ledger that raises wherever [L] answers without success. *)
Definition as_exceptions {Net} (L : Ledger Net) : Ledger Net :=
  {| request := fun node wallet s =>
       let (resp, s') := @request Net L node wallet s in
       (if failed resp then Raised else resp, s');
     elapse := @elapse Net L |}.

(** A trace without the difference between the two kinds of failed attempt. *)
Definition blur (e : Event) : Event :=
  match e with
  | Requested node wallet resp =>
      Requested node wallet (if failed resp then Raised else resp)
  | Logged _ (AttemptNotSuccessful wallet attempt node) =>
      Logged ERROR (AttemptRaised wallet attempt node)
  | e => e
  end.
(** Two worlds that differ at most in the kind of the failed attempts
    their traces show. *)
Definition same_but_blurred {Net} (w1 w2 : World Net) : Prop :=
  net w1 = net w2 ∧ conn w1 = conn w2 ∧ blur <$> trace w1 = blur <$> trace w2.

(** ** Reading a pass *)

(** The answers [has_trustline] gives in the course of a loop over [rows],
    one per row, in order; [key] is the wallet of a row. *)
Fixpoint statuses_seen {Net} `{Ledger Net} {R A : Type} (key : R -> string)
  (body : A -> R -> M Net A) (acc : A) (rows : list R) (w : World Net)
  : list (option bool) :=
  match rows with
  | [] => []
  | row :: rest =>
      (has_trustline (key row) w).1
        :: statuses_seen key body (body acc row w).1 rest (body acc row w).2
  end.

(** How often an answer occurs in such a list. *)
Definition count_status (st : option bool) (seen : list (option bool)) : nat :=
  length (filter (fun s => s = st) seen).

(** The three tables hold the same for [wallet] in [db] and in [db']. *)
Definition same_at (wallet : string) (db db' : DB) : Prop :=
  tokens db !! wallet = tokens db' !! wallet ∧
  tokens_missing_tl db !! wallet = tokens_missing_tl db' !! wallet ∧
  retry_queue db !! wallet = retry_queue db' !! wallet.

(** What the first pass does to a wallet of the source table with balance
    [Bal], by the answer of the classifier: [db] before the pass, [db']
    after it (section 4.4 of the specification). *)
Definition first_pass_policy (Wallet : string) (Bal : Balance)
  (st : option bool) (db db' : DB) : Prop :=
  match st with
  | Some true => same_at Wallet db db'
  | Some false =>
      tokens db' !! Wallet = None ∧
      tokens_missing_tl db' !! Wallet = Some Bal ∧
      retry_queue db' !! Wallet = retry_queue db !! Wallet
  | None =>
      tokens db' !! Wallet = None ∧
      tokens_missing_tl db' !! Wallet = tokens_missing_tl db !! Wallet ∧
      retry_queue db' !! Wallet =
        Some (mkRetryRow Bal (Some (default 0 (select_tries Wallet db))))
  end.

(** What the second pass does to a row of the retry table (section 4.5). *)
Definition second_pass_policy (Wallet : string) (r : RetryRow)
  (st : option bool) (db db' : DB) : Prop :=
  retry_queue db' !! Wallet = None ∧
  tokens db' !! Wallet = tokens db !! Wallet ∧
  match st with
  | Some true => tokens_missing_tl db' !! Wallet = tokens_missing_tl db !! Wallet
  | Some false | None => tokens_missing_tl db' !! Wallet = Some (rr_balance r)
  end.

(** The tables that hold a row for [wallet]. *)
Definition residency (db : DB) (wallet : string) : list TableName :=
  (if tokens db !! wallet is Some _ then [AIRDROP_TABLE] else []) ++
  (if tokens_missing_tl db !! wallet is Some _ then [MISSING_TL_TABLE] else []) ++
  (if retry_queue db !! wallet is Some _ then [RETRY_QUEUE_TABLE] else []).

Definition in_one_table (db : DB) (wallet : string) : Prop :=
  ∃ table_name, residency db wallet = [table_name].

(** ** Ledgers and stores for concrete runs *)

(** No node answers. *)
Definition dead_ledger : Ledger unit :=
  {| request := fun _ _ s => (Raised, s); elapse := fun _ s => s |}.

(** Every node answers at once with success and a result without ["lines"]. *)
Definition bare_ledger : Ledger unit :=
  {| request := fun _ _ s => (Replied true ∅, s); elapse := fun _ s => s |}.

Definition matching_line : TrustLine :=
  {[ "account" := JStr ISSUER_OF_TOKEN; "currency" := JStr CURRENCY_HEX ]}.

Definition other_line : TrustLine :=
  {[ "account" := JStr "rOther"; "currency" := JStr CURRENCY_HEX ]}.

(** The scenario of the specification: the first node answers at once,
    with the trustline for W1, without it for W2; nobody answers for any
    other wallet. *)
Definition scenario_ledger : Ledger unit :=
  {| request := fun _ wallet s =>
       (if String.eqb wallet "W1" then
          Replied true {[ "lines" := [other_line; matching_line] ]}
        else if String.eqb wallet "W2" then
          Replied true {[ "lines" := [other_line] ]}
        else Raised, s);
     elapse := fun _ s => s |}.

Definition empty_db : DB := mkDB ∅ ∅ ∅.

Definition scenario_db : DB :=
  mkDB {[ "W1" := 100 # 1; "W2" := 200 # 1 ]} ∅ ∅.

(** Two wallets in the source table, the other tables empty. *)
Definition two_wallets_db : DB :=
  mkDB {[ "W2" := 200 # 1; "W3" := 50 # 1 ]} ∅ ∅.

(** W3 is in the source table and has a row in the retry table whose
    [tries] is NULL. *)
Definition null_tries_db : DB :=
  mkDB {[ "W3" := 50 # 1 ]} ∅ {[ "W3" := mkRetryRow (7 # 1) None ]}.

(** The same with [tries = 3]. *)
Definition three_tries_db : DB :=
  mkDB {[ "W3" := 50 # 1 ]} ∅ {[ "W3" := mkRetryRow (7 # 1) (Some 3) ]}.

(** W3 alone in the source table, the other tables empty. *)
Definition one_wallet_db : DB := mkDB {[ "W3" := 50 # 1 ]} ∅ ∅.

Definition fresh_world (db : DB) : World unit := mkWorld tt (mkConn db db) [].

(** What [process_Wallets_table] with [second_pass=True] does on the source
    table to a wallet with balance [Bal], by the answer. *)
Definition forced_pass_policy (Wallet : string) (Bal : Balance)
  (st : option bool) (db db' : DB) : Prop :=
  match st with
  | Some true => same_at Wallet db db'
  | Some false | None =>
      tokens db' !! Wallet = None ∧ tokens_missing_tl db' !! Wallet = Some Bal
  end.

(** ** Replaying a trace against the ledger *)

(** The events [evs], all for [wallet], are what the ledger does from the
    state [s]: every request got the response [request] gives in the state
    the environment is in at that moment, every sleep let the environment
    move on, and [s'] is the state at the end. *)
Fixpoint replays {Net} `{Ledger Net} (wallet : string) (evs : list Event)
  (s s' : Net) : Prop :=
  match evs with
  | [] => s' = s
  | Requested node wl resp :: rest =>
      wl = wallet ∧
      (request node wallet s).1 = resp ∧
      replays wallet rest (request node wallet s).2 s'
  | Slept seconds :: rest => replays wallet rest (elapse seconds s) s'
  | Logged _ _ :: rest => replays wallet rest s s'
  end.

(** Every node answers at once with success and the one matching line. *)
Definition present_ledger : Ledger unit :=
  {| request := fun _ _ s =>
       (Replied true
          {[ "lines" := [ {[ "account" := JStr ISSUER_OF_TOKEN;
                             "currency" := JStr CURRENCY_HEX ]} ] ]}, s);
     elapse := fun _ s => s |}.

(** ** Reading more of a run *)

(** The events a run from [w] to [w'] appended to the trace. *)
Definition events_since {Net} (w w' : World Net) : list Event :=
  drop (length (trace w)) (trace w').

(** The requests of a trace that failed. *)
Definition failures_of (evs : list Event) : nat :=
  length (filter (fun c => failed c.2 = true) (calls_of evs)).

(** [base_backoff_seconds * attempt], as [time.sleep] gets it. *)
Definition backoff (attempt : nat) : Q :=
  inject_Z (base_backoff_seconds * Z.of_nat attempt).

(** The sleeps of a fetch in which every request fails. *)
Definition backoff_plan (nodes : list string) : list Q :=
  nodes ≫= (fun _ => backoff <$> seq 1 max_retries_per_node).

(** The log line the retry loop writes after a failed attempt. *)
Definition attempt_log (wallet : string) (attempt : nat) (node : string)
  (resp : Response) : Event :=
  match resp with
  | Raised => Logged ERROR (AttemptRaised wallet attempt node)
  | Replied _ _ => Logged WARNING (AttemptNotSuccessful wallet attempt node)
  end.

(** A ledger whose first two requests raise and whose later requests
    succeed with one matching line; its state counts the requests. *)
Definition flaky_ledger : Ledger nat :=
  {| request := fun _ _ n =>
       (if (n <? 2)%nat then Raised
        else Replied true {[ "lines" := [matching_line] ]}, S n);
     elapse := fun _ n => n |}.

(** W2 is in the source table and, like W7, in the missing table. *)
Definition with_missing_db : DB :=
  mkDB {[ "W2" := 200 # 1 ]} {[ "W2" := 5 # 1; "W7" := 9 # 1 ]} ∅.

(** The source table is empty; W3 waits in the retry table. *)
Definition only_retry_db : DB :=
  mkDB ∅ ∅ {[ "W3" := mkRetryRow (50 # 1) (Some 0) ]}.

(** W3 waits in the retry table, W1 is in the source table. *)
Definition stale_retry_db : DB :=
  mkDB {[ "W1" := 100 # 1 ]} ∅ {[ "W3" := mkRetryRow (50 # 1) (Some 0) ]}.

(** * Properties *)

(** ** Proof support *)

Lemma calls_of_app evs1 evs2 : calls_of (evs1 ++ evs2) = calls_of evs1 ++ calls_of evs2.
Proof. unfold calls_of. apply bind_app. Qed.

Lemma calls_of_requested node wallet resp evs :
  calls_of (Requested node wallet resp :: evs) = (node, resp) :: calls_of evs.
Proof. reflexivity. Qed.

Lemma calls_of_slept s evs : calls_of (Slept s :: evs) = calls_of evs.
Proof. reflexivity. Qed.

Lemma calls_of_logged lvl line evs : calls_of (Logged lvl line :: evs) = calls_of evs.
Proof. reflexivity. Qed.

Lemma calls_of_nil : calls_of [] = [].
Proof. reflexivity. Qed.

Lemma sleeps_of_app evs1 evs2 : sleeps_of (evs1 ++ evs2) = sleeps_of evs1 ++ sleeps_of evs2.
Proof. unfold sleeps_of. apply bind_app. Qed.

Lemma run_bind {Net A B} (m : M Net A) (k : A -> M Net B) (w : World Net) :
  (m ≫= k) w = k (m w).1 (m w).2.
Proof. unfold mbind, M_bind. by destruct (m w). Qed.

Lemma run_ret {Net A} (a : A) (w : World Net) :
  (mret a : M Net A) w = (a, w).
Proof. reflexivity. Qed.

(** Unfold the monad and the primitives of the script in a hypothesis. *)
Ltac calls_simpl :=
  repeat first
    [ rewrite calls_of_app | rewrite calls_of_requested | rewrite calls_of_slept
    | rewrite calls_of_logged | rewrite calls_of_nil ].

Ltac run_in H :=
  unfold mbind, M_bind, mret, M_ret, client_request, log, emit, sleep,
    execute, query, commit in H; cbn beta iota zeta in H.

Arguments calls_of : simpl never.
Arguments sleeps_of : simpl never.
Arguments fetches_of : simpl never.

Section Engine.
Context {Net : Type} `{L : Ledger Net}.
Implicit Types (w : World Net) (wallet node : string).

(** What one retry loop does, read off the events it appends. *)
Lemma attempt_loop_run wallet node attempts w r w' :
  attempt_loop wallet node attempts w = (r, w') ->
  conn w' = conn w ∧
  ∃ evs, trace w' = trace w ++ evs ∧
    match r with
    | None =>
        (calls_of evs).*1 = replicate (length attempts) node ∧
        Forall (fun c => failed c.2 = true) (calls_of evs)
    | Some lines =>
        ∃ evs0 result k,
          evs = evs0 ++ [Requested node wallet (Replied true result)] ∧
          lines = result_lines result ∧
          (k < length attempts)%nat ∧
          (calls_of evs0).*1 = replicate k node ∧
          Forall (fun c => failed c.2 = true) (calls_of evs0)
    end.
Proof.
  revert w. induction attempts as [|attempt rest IH]; intros w Hrun.
  - injection Hrun as <- <-. split; [done|]. exists []. rewrite app_nil_r. by repeat split.
  - cbn [attempt_loop] in Hrun. run_in Hrun.
    destruct (request node wallet (net w)) as [resp n'] eqn:Hreq.
    destruct resp as [|[] result]; cbn in Hrun.
    + apply IH in Hrun as (Hc & evs & Htr & Hspec). cbn in Hc, Htr.
      split; [done|]. eexists (_ :: _ :: _ :: evs). split.
      { rewrite Htr, <- !app_assoc. reflexivity. }
      destruct r as [lines|].
      * destruct Hspec as (evs0 & result & k & -> & -> & Hk & Hn & Hf).
        eexists (_ :: _ :: _ :: evs0), result, (S k).
        split; [reflexivity|]. calls_simpl.
        split; [done|]. split; [cbn; lia|].
        split; [by rewrite fmap_cons, Hn | by constructor].
      * destruct Hspec as [Hn Hf]. calls_simpl.
        split; [by rewrite fmap_cons, Hn | by constructor].
    + injection Hrun as <- <-. cbn. split; [done|].
      eexists [_]. split; [done|]. exists [], result, 0%nat. calls_simpl.
      split; [done|]. split; [done|]. split; [lia|]. by split.
    + apply IH in Hrun as (Hc & evs & Htr & Hspec). cbn in Hc, Htr.
      split; [done|]. eexists (_ :: _ :: _ :: evs). split.
      { rewrite Htr, <- !app_assoc. reflexivity. }
      destruct r as [lines|].
      * destruct Hspec as (evs0 & result' & k & -> & -> & Hk & Hn & Hf).
        eexists (_ :: _ :: _ :: evs0), result', (S k).
        split; [reflexivity|]. calls_simpl.
        split; [done|]. split; [cbn; lia|].
        split; [by rewrite fmap_cons, Hn | by constructor].
      * destruct Hspec as [Hn Hf]. calls_simpl.
        split; [by rewrite fmap_cons, Hn | by constructor].
Qed.

Lemma replicate_snoc_prefix (node : string) k n :
  (k < n)%nat -> (replicate k node ++ [node]) `prefix_of` replicate n node.
Proof.
  intros Hk. exists (replicate (n - S k) node).
  replace (replicate k node ++ [node]) with (replicate (S k) node).
  - rewrite <- replicate_add. f_equal. lia.
  - replace (S k) with (k + 1)%nat by lia. by rewrite replicate_add.
Qed.

(** What the loop over the nodes does, read off the events it appends. *)
Lemma node_loop_run wallet nodes w r w' :
  node_loop wallet nodes w = (r, w') ->
  conn w' = conn w ∧
  ∃ evs, trace w' = trace w ++ evs ∧
    match r with
    | None =>
        (calls_of evs).*1 = plan_of nodes ∧
        Forall (fun c => failed c.2 = true) (calls_of evs)
    | Some lines =>
        ∃ evs0 node result,
          evs = evs0 ++ [Requested node wallet (Replied true result)] ∧
          lines = result_lines result ∧
          Forall (fun c => failed c.2 = true) (calls_of evs0) ∧
          ((calls_of evs0).*1 ++ [node]) `prefix_of` plan_of nodes
    end.
Proof.
  revert w. induction nodes as [|node_url rest IH]; intros w Hrun.
  - cbn [node_loop] in Hrun. run_in Hrun. injection Hrun as <- <-.
    split; [done|]. eexists [_]. split; [done|]. calls_simpl. by split.
  - cbn [node_loop] in Hrun. rewrite run_bind, run_bind in Hrun.
    cbn [log emit fst snd] in Hrun.
    set (w1 := mkWorld _ _ _) in Hrun.
    destruct (attempt_loop wallet node_url (seq 1 max_retries_per_node) w1)
      as [r1 w2] eqn:Hloop.
    apply attempt_loop_run in Hloop as (Hc1 & evs1 & Htr1 & Hspec1).
    cbn [fst snd] in Hrun. destruct r1 as [lines|].
    + injection Hrun as <- <-. split; [done|].
      destruct Hspec1 as (evs0 & result & k & -> & -> & Hk & Hn & Hf).
      eexists (_ :: evs0 ++ [_]). split.
      { rewrite Htr1. subst w1. cbn [trace]. by rewrite <- app_assoc. }
      exists (Logged INFO (TryingNode wallet node_url) :: evs0), node_url, result.
      split; [done|]. split; [done|]. calls_simpl. split; [done|].
      unfold plan_of. rewrite bind_cons, Hn. apply prefix_app_r.
      apply replicate_snoc_prefix. by rewrite length_seq in Hk.
    + rewrite run_bind in Hrun. cbn [log emit fst snd] in Hrun.
      apply IH in Hrun as (Hc & evs & Htr & Hspec).
      cbn [conn trace] in Hc, Htr. split; [by rewrite Hc, Hc1|].
      destruct Hspec1 as [Hn1 Hf1]. rewrite length_seq in Hn1.
      exists (Logged INFO (TryingNode wallet node_url) :: evs1
              ++ Logged WARNING (NodeFailedAll wallet node_url) :: evs). split.
      { rewrite Htr, Htr1. subst w1. cbn [trace]. by rewrite <- !app_assoc. }
      destruct r as [lines|].
      * destruct Hspec as (evs0 & node & result & -> & -> & Hf & Hpre).
        exists (Logged INFO (TryingNode wallet node_url) :: evs1
                ++ Logged WARNING (NodeFailedAll wallet node_url) :: evs0), node, result.
        split; [by rewrite <- !app_comm_cons, <- app_assoc|]. split; [done|].
        calls_simpl. split; [by apply Forall_app|].
        unfold plan_of. rewrite bind_cons, fmap_app, Hn1, <- app_assoc.
        by apply prefix_app.
      * destruct Hspec as [Hn Hf]. calls_simpl. split; [|by apply Forall_app].
        unfold plan_of. by rewrite bind_cons, fmap_app, Hn1, Hn.
Qed.

Lemma same_but_blurred_snoc w1 w2 e1 e2 :
  same_but_blurred w1 w2 -> blur e1 = blur e2 ->
  blur <$> (trace w1 ++ [e1]) = blur <$> (trace w2 ++ [e2]).
Proof. intros (_ & _ & Ht) He. by rewrite !fmap_app, Ht, !list_fmap_singleton, He. Qed.

Lemma attempt_loop_blur wallet node attempts w1 w2 :
  same_but_blurred w1 w2 ->
  (@attempt_loop Net (as_exceptions L) wallet node attempts w1).1
    = (attempt_loop wallet node attempts w2).1 ∧
  same_but_blurred
    (@attempt_loop Net (as_exceptions L) wallet node attempts w1).2
    (attempt_loop wallet node attempts w2).2.
Proof.
  revert w1 w2. induction attempts as [|attempt rest IH]; intros w1 w2 HR.
  - done.
  - cbn [attempt_loop]. unfold mbind, M_bind, client_request.
    cbn [request as_exceptions]. destruct HR as (Hn & Hc & Ht). rewrite Hn.
    destruct (request node wallet (net w2)) as [resp n'].
    destruct resp as [|[] result]; cbn [failed log emit sleep].
    + apply IH. unfold same_but_blurred. cbn [net conn trace elapse as_exceptions].
      split; [done|]. split; [done|].
      by rewrite !fmap_app, Ht.
    + unfold same_but_blurred. cbn [mret M_ret fst snd net conn trace].
      split; [done|]. split; [done|]. split; [done|].
      by rewrite !fmap_app, Ht.
    + apply IH. unfold same_but_blurred. cbn [net conn trace elapse as_exceptions].
      split; [done|]. split; [done|].
      by rewrite !fmap_app, Ht.
Qed.

Lemma node_loop_blur wallet nodes w1 w2 :
  same_but_blurred w1 w2 ->
  (@node_loop Net (as_exceptions L) wallet nodes w1).1
    = (node_loop wallet nodes w2).1 ∧
  same_but_blurred
    (@node_loop Net (as_exceptions L) wallet nodes w1).2
    (node_loop wallet nodes w2).2.
Proof.
  revert w1 w2. induction nodes as [|node_url rest IH]; intros w1 w2 HR.
  - destruct HR as (Hn & Hc & Ht). unfold same_but_blurred.
    cbn [node_loop]. rewrite !run_bind. cbn.
    split; [done|]. split; [done|]. split; [done|]. by rewrite !fmap_app, Ht.
  - cbn [node_loop]. rewrite !run_bind. cbn [log emit fst snd].
    set (v1 := mkWorld _ _ (trace w1 ++ _)). set (v2 := mkWorld _ _ (trace w2 ++ _)).
    assert (same_but_blurred v1 v2) as HR1.
    { destruct HR as (Hn & Hc & Ht). split; [done|]. split; [done|].
      subst v1 v2. cbn [net conn trace]. by rewrite !fmap_app, Ht. }
    destruct (attempt_loop_blur wallet node_url (seq 1 max_retries_per_node) v1 v2 HR1)
      as [Hres HR2].
    rewrite Hres.
    destruct (attempt_loop wallet node_url (seq 1 max_retries_per_node) v2).1.
    + done.
    + rewrite !run_bind. cbn [log emit fst snd]. apply IH.
      destruct HR2 as (Hn & Hc & Ht). unfold same_but_blurred.
      cbn [net conn trace]. split; [done|]. split; [done|].
      by rewrite !fmap_app, Ht.
Qed.

Lemma scan_lines_true (lines : list TrustLine) :
  scan_lines lines = true ↔
  ∃ line, line ∈ lines ∧
    line !! "account" = Some (JStr ISSUER_OF_TOKEN) ∧
    line !! "currency" = Some (JStr CURRENCY_HEX).
Proof.
  induction lines as [|line rest IH]; cbn [scan_lines].
  - split; [done|]. intros (line & Hin & _). by apply elem_of_nil in Hin.
  - destruct (line_matches line) eqn:Hm.
    + split; [|done]. intros _. exists line. split; [left|].
      unfold line_matches in Hm. apply andb_true_iff in Hm as [Ha Hc].
      by apply bool_decide_eq_true in Ha, Hc.
    + rewrite IH. split.
      * intros (l & Hin & Hl). exists l. split; [by right|done].
      * intros (l & Hin & Ha & Hc). apply elem_of_cons in Hin as [->|Hin].
        -- unfold line_matches in Hm. rewrite !bool_decide_eq_true_2 in Hm; done.
        -- by exists l.
Qed.

Lemma scan_lines_perm (lines lines' : list TrustLine) :
  lines ≡ₚ lines' -> scan_lines lines = scan_lines lines'.
Proof.
  intros Hp. apply eq_true_iff_eq. rewrite !scan_lines_true.
  by setoid_rewrite Hp.
Qed.

(** Entries for other issuers or currencies, wherever they stand in the
    list, do not change the answer. *)
Lemma scan_lines_unrelated (lines : list TrustLine) :
  scan_lines (filter (fun line => line_matches line = true) lines) = scan_lines lines.
Proof.
  induction lines as [|line rest IH]; [done|].
  rewrite filter_cons. cbn [scan_lines].
  destruct (decide (line_matches line = true)) as [Hm|Hm].
  - cbn [scan_lines]. by rewrite Hm.
  - apply not_true_is_false in Hm. by rewrite Hm.
Qed.

Lemma has_trustline_run wallet w :
  has_trustline wallet w =
    (scan_lines <$> (fetch_trustlines_with_failover wallet w).1,
     (fetch_trustlines_with_failover wallet w).2).
Proof.
  unfold has_trustline. rewrite run_bind.
  by destruct (fetch_trustlines_with_failover wallet w).1.
Qed.

(** C1. [has_trustline] changes the world as the fetch does and nothing
    more; it answers Indeterminate ([None]) exactly when the fetch returns
    [None]; on a fetched list it answers Present exactly when some entry has
    ["account"] equal to the issuer and ["currency"] equal to the currency
    code, both as the same strings, and Absent exactly when no entry has, so
    for the empty list too; the answer is the same for every reordering of
    the list. *)
Theorem has_trustline_classification wallet w :
  let fetched := fetch_trustlines_with_failover wallet w in
  let answer := has_trustline wallet w in
  answer.2 = fetched.2 ∧
  (answer.1 = Indeterminate ↔ fetched.1 = None) ∧
  (∀ lines, fetched.1 = Some lines ->
     (answer.1 = Present ↔
        ∃ line, line ∈ lines ∧
          line !! "account" = Some (JStr ISSUER_OF_TOKEN) ∧
          line !! "currency" = Some (JStr CURRENCY_HEX)) ∧
     (answer.1 = Absent ↔
        ¬ ∃ line, line ∈ lines ∧
          line !! "account" = Some (JStr ISSUER_OF_TOKEN) ∧
          line !! "currency" = Some (JStr CURRENCY_HEX)) ∧
     (lines = [] -> answer.1 = Absent) ∧
     (∀ lines', lines ≡ₚ lines' -> answer.1 = Some (scan_lines lines'))).
Proof.
  cbn zeta. rewrite has_trustline_run. cbn [fst snd].
  split; [done|]. split.
  { by destruct (fetch_trustlines_with_failover wallet w).1. }
  intros lines ->. cbn [fmap option_fmap option_map].
  rewrite <- scan_lines_true. repeat split.
  - by intros [= ->].
  - by intros ->.
  - intros [= Hs]. by rewrite Hs.
  - intros Hs. f_equal. by apply not_true_is_false.
  - by intros ->.
  - intros lines' Hp. f_equal. by apply scan_lines_perm.
Qed.

Lemma replays_app wallet evs1 evs2 (s s1 s2 : Net) :
  replays wallet evs1 s s1 -> replays wallet evs2 s1 s2 ->
  replays wallet (evs1 ++ evs2) s s2.
Proof.
  revert s. induction evs1 as [|e evs1 IH]; intros s H1 H2.
  - cbn in H1. by subst s1.
  - destruct e as [node wl resp|seconds|lvl line]; cbn in *.
    + destruct H1 as (Hw & Hresp & H1). split; [done|]. split; [done|]. by apply IH.
    + by apply IH.
    + by apply IH.
Qed.

(** The events of one retry loop are the ledger's. *)
Lemma attempt_loop_replays wallet node attempts w r w' :
  attempt_loop wallet node attempts w = (r, w') ->
  ∃ evs, trace w' = trace w ++ evs ∧ replays wallet evs (net w) (net w').
Proof.
  revert w. induction attempts as [|attempt rest IH]; intros w Hrun.
  - injection Hrun as <- <-. exists []. by rewrite app_nil_r.
  - cbn [attempt_loop] in Hrun. run_in Hrun.
    destruct (request node wallet (net w)) as [resp n'] eqn:Hreq.
    destruct resp as [|[] result]; cbn in Hrun.
    + apply IH in Hrun as (evs & Htr & Hrep). cbn in Htr, Hrep.
      eexists (_ :: _ :: _ :: evs). split.
      { rewrite Htr, <- !app_assoc. reflexivity. }
      cbn. by rewrite Hreq.
    + injection Hrun as <- <-. eexists [_]. split; [done|].
      cbn. by rewrite Hreq.
    + apply IH in Hrun as (evs & Htr & Hrep). cbn in Htr, Hrep.
      eexists (_ :: _ :: _ :: evs). split.
      { rewrite Htr, <- !app_assoc. reflexivity. }
      cbn. by rewrite Hreq.
Qed.

(** The events of the loop over the nodes are the ledger's. *)
Lemma node_loop_replays wallet nodes w r w' :
  node_loop wallet nodes w = (r, w') ->
  ∃ evs, trace w' = trace w ++ evs ∧ replays wallet evs (net w) (net w').
Proof.
  revert w. induction nodes as [|node_url rest IH]; intros w Hrun.
  - cbn [node_loop] in Hrun. run_in Hrun. injection Hrun as <- <-.
    by eexists [_].
  - cbn [node_loop] in Hrun. rewrite run_bind, run_bind in Hrun.
    cbn [log emit fst snd] in Hrun.
    set (w1 := mkWorld _ _ _) in Hrun.
    destruct (attempt_loop wallet node_url (seq 1 max_retries_per_node) w1)
      as [r1 w2] eqn:Hloop.
    apply attempt_loop_replays in Hloop as (evs1 & Htr1 & Hrep1).
    cbn [fst snd] in Hrun. destruct r1 as [lines|].
    + injection Hrun as <- <-.
      exists (Logged INFO (TryingNode wallet node_url) :: evs1). split.
      { rewrite Htr1. subst w1. cbn [trace]. by rewrite <- app_assoc. }
      done.
    + rewrite run_bind in Hrun. cbn [log emit fst snd] in Hrun.
      apply IH in Hrun as (evs & Htr & Hrep). cbn [net trace] in Htr, Hrep.
      exists (Logged INFO (TryingNode wallet node_url) :: evs1
              ++ Logged WARNING (NodeFailedAll wallet node_url) :: evs). split.
      { rewrite Htr, Htr1. subst w1. cbn [trace]. by rewrite <- !app_assoc. }
      cbn [replays]. by eapply replays_app.
Qed.

(** C2. The events of one fetch are what the ledger does from the state
    the fetch starts in: every request is for the wallet and got the
    response [request] gives at that moment, and the fetch leaves the
    environment where these events lead. Its requests follow the plan
    (every node of [NODES] in order, each [max_retries_per_node] = 2 times)
    from its start. The fetch returns [None] exactly when it made all the
    requests of the plan and every one failed. When it returns a list, the
    last event of the fetch is a request with a successful response, the
    list is the ["lines"] field of that response's result (the empty list
    when the field is missing), and every request before it failed. And
    had the ledger raised wherever it answered without success, the fetch
    would have returned the same and left the same environment and, up to
    the kind of the failures, the same trace. *)
Theorem fetch_failover_indeterminate_iff wallet w :
  let run := fetch_trustlines_with_failover wallet w in
  max_retries_per_node = 2%nat ∧
  ∃ evs, trace run.2 = trace w ++ evs ∧
    replays wallet evs (net w) (net run.2) ∧
    (calls_of evs).*1 `prefix_of` plan_of NODES ∧
    (run.1 = None ↔
       (calls_of evs).*1 = plan_of NODES ∧
       Forall (fun c => failed c.2 = true) (calls_of evs)) ∧
    (∀ lines, run.1 = Some lines ->
       ∃ evs0 node result,
         evs = evs0 ++ [Requested node wallet (Replied true result)] ∧
         lines = default [] (result !! "lines") ∧
         Forall (fun c => failed c.2 = true) (calls_of evs0)) ∧
    (∀ result, failed Raised = true ∧ failed (Replied false result) = true
               ∧ failed (Replied true result) = false) ∧
    (let run' := @fetch_trustlines_with_failover Net (as_exceptions L) wallet w in
     run'.1 = run.1 ∧ net run'.2 = net run.2 ∧ conn run'.2 = conn run.2 ∧
     blur <$> trace run'.2 = blur <$> trace run.2).
Proof.
  cbn zeta. split; [done|]. unfold fetch_trustlines_with_failover.
  destruct (node_loop wallet NODES w) as [r w'] eqn:Hrun.
  pose proof (node_loop_run _ _ _ _ _ Hrun) as (Hc & evs & Htr & Hspec).
  pose proof (node_loop_replays _ _ _ _ _ Hrun) as (evs' & Htr' & Hrep).
  assert (evs' = evs) as -> by (rewrite Htr in Htr'; by apply app_inv_head in Htr').
  exists evs. cbn [fst snd]. split; [done|]. split; [done|].
  assert (r = None ↔ (calls_of evs).*1 = plan_of NODES
                     ∧ Forall (fun c => failed c.2 = true) (calls_of evs)) as Hiff.
  { destruct r as [lines|]; [|done]. split; [done|]. intros [_ Hall].
    destruct Hspec as (evs0 & node & result & -> & _).
    rewrite calls_of_app, Forall_app in Hall. destruct Hall as [_ Hall].
    rewrite calls_of_requested, calls_of_nil in Hall.
    inversion Hall as [|? ? Hx _]. by cbn in Hx. }
  split; [|split; [done|split; [|split; [done|]]]].
  - destruct r as [lines|].
    + destruct Hspec as (evs0 & node & result & -> & _ & _ & Hpre).
      by calls_simpl; rewrite fmap_app.
    + destruct Hspec as [-> _]. done.
  - intros lines ->. destruct Hspec as (evs0 & node & result & -> & -> & Hf & _).
    by exists evs0, node, result.
  - pose proof (node_loop_blur wallet NODES w w) as [Hres (Hn & Hc' & Ht)].
    { done. }
    rewrite Hrun in Hres, Hn, Hc', Ht. done.
Qed.

End Engine.

(** ** The passes *)

Section Driver.
Context {Net : Type} `{L : Ledger Net}.
Implicit Types (w : World Net) (db : DB).

Lemma has_trustline_conn wallet w : conn (has_trustline wallet w).2 = conn w.
Proof.
  rewrite has_trustline_run. cbn [snd]. unfold fetch_trustlines_with_failover.
  destruct (node_loop wallet NODES w) as [r w'] eqn:Hrun.
  by apply node_loop_run in Hrun as [Hc _].
Qed.

(** One turn of the loop of [process_Wallets_table]: nothing is committed,
    and the tables and the counters change by the answer alone. *)
Lemma wallets_table_body_run table_name second_pass counts Wallet Bal w :
  let st := (has_trustline Wallet w).1 in
  let db := working (conn w) in
  let step := wallets_table_body table_name second_pass counts (Wallet, Bal) w in
  committed (conn step.2) = committed (conn w) ∧
  working (conn step.2) =
    match st with
    | Some true => db
    | Some false => delete_from table_name Wallet (insert_or_replace_missing Wallet Bal db)
    | None =>
        if second_pass
        then delete_from table_name Wallet (insert_or_replace_missing Wallet Bal db)
        else delete_from table_name Wallet (insert_or_replace_retry Wallet Bal db)
    end ∧
  step.1 =
    match st with
    | Some true => counts
    | Some false => (S counts.1, counts.2)
    | None => if second_pass then (S counts.1, counts.2) else (counts.1, S counts.2)
    end.
Proof.
  cbn zeta. unfold wallets_table_body. destruct counts as [mm mr].
  rewrite !run_bind. cbn [sleep fst snd].
  pose proof (has_trustline_conn Wallet w) as Hc.
  destruct (has_trustline Wallet w) as [st w1]. cbn [fst snd] in *.
  destruct st as [[]|]; [| |destruct second_pass];
    rewrite ?run_bind; cbn; rewrite Hc; done.
Qed.

(** One turn of the loop of [process_retry_queue]. *)
Lemma retry_queue_body_run moved Wallet r w :
  let st := (has_trustline Wallet w).1 in
  let db := working (conn w) in
  let step := retry_queue_body moved (Wallet, r) w in
  committed (conn step.2) = committed (conn w) ∧
  working (conn step.2) =
    match st with
    | Some true => delete_from RETRY_QUEUE_TABLE Wallet db
    | Some false | None =>
        delete_from RETRY_QUEUE_TABLE Wallet
          (insert_or_replace_missing Wallet (rr_balance r) db)
    end ∧
  step.1 = match st with Some true => moved | Some false | None => S moved end.
Proof.
  cbn zeta. unfold retry_queue_body.
  rewrite !run_bind. cbn [sleep fst snd].
  pose proof (has_trustline_conn Wallet w) as Hc.
  destruct (has_trustline Wallet w) as [st w1]. cbn [fst snd] in *.
  destruct st as [[]|]; rewrite ?run_bind; cbn; rewrite Hc; done.
Qed.

(** *** The statements on the tables *)

Lemma same_at_refl wallet db : same_at wallet db db.
Proof. done. Qed.

Lemma same_at_trans wallet db1 db2 db3 :
  same_at wallet db1 db2 -> same_at wallet db2 db3 -> same_at wallet db1 db3.
Proof. intros (?&?&?) (?&?&?). repeat split; congruence. Qed.

Lemma select_tries_same_at wallet db db' :
  same_at wallet db db' -> select_tries wallet db = select_tries wallet db'.
Proof. intros (_&_&Hr). unfold select_tries. by rewrite Hr. Qed.

Lemma move_to_missing_other table_name wallet balance other db :
  wallet ≠ other ->
  same_at other db (delete_from table_name wallet (insert_or_replace_missing wallet balance db)).
Proof.
  intros Hne. unfold same_at.
  destruct table_name; cbn;
    rewrite ?lookup_delete_ne, ?lookup_insert_ne by done; done.
Qed.

Lemma move_to_retry_other table_name wallet balance other db :
  wallet ≠ other ->
  same_at other db (delete_from table_name wallet (insert_or_replace_retry wallet balance db)).
Proof.
  intros Hne. unfold same_at.
  destruct table_name; cbn;
    rewrite ?lookup_delete_ne, ?lookup_insert_ne by done; done.
Qed.

Lemma delete_from_other table_name wallet other db :
  wallet ≠ other -> same_at other db (delete_from table_name wallet db).
Proof.
  intros Hne. unfold same_at.
  destruct table_name; cbn; rewrite ?lookup_delete_ne by done; done.
Qed.

Lemma first_pass_policy_before Wallet Bal st db0 db db' :
  same_at Wallet db0 db ->
  first_pass_policy Wallet Bal st db db' -> first_pass_policy Wallet Bal st db0 db'.
Proof.
  intros Hs. destruct st as [[]|]; cbn.
  - by apply same_at_trans.
  - destruct Hs as (_&_&Hr). rewrite Hr. done.
  - rewrite (select_tries_same_at _ _ _ Hs). destruct Hs as (_&Hm&_).
    rewrite Hm. done.
Qed.

Lemma first_pass_policy_after Wallet Bal st db db1 db' :
  first_pass_policy Wallet Bal st db db1 -> same_at Wallet db1 db' ->
  first_pass_policy Wallet Bal st db db'.
Proof.
  intros Hp (Ht & Hm & Hr). destruct st as [[]|]; cbn in *.
  - by apply (same_at_trans _ _ db1).
  - by rewrite <- Ht, <- Hm, <- Hr.
  - by rewrite <- Ht, <- Hm, <- Hr.
Qed.

(** The turn of a wallet in the first pass follows the policy. *)
Lemma first_pass_policy_turn Wallet Bal st db :
  first_pass_policy Wallet Bal st db
    match st with
    | Some true => db
    | Some false =>
        delete_from AIRDROP_TABLE Wallet (insert_or_replace_missing Wallet Bal db)
    | None =>
        delete_from AIRDROP_TABLE Wallet (insert_or_replace_retry Wallet Bal db)
    end.
Proof.
  destruct st as [[]|]; cbn.
  - done.
  - by rewrite lookup_delete_eq, lookup_insert_eq.
  - by rewrite lookup_delete_eq, lookup_insert_eq.
Qed.

(** The turn of another wallet leaves the three tables as they are at
    [other]. *)
Lemma first_pass_turn_other Wallet Bal other st db :
  Wallet ≠ other ->
  same_at other db
    match st with
    | Some true => db
    | Some false =>
        delete_from AIRDROP_TABLE Wallet (insert_or_replace_missing Wallet Bal db)
    | None =>
        delete_from AIRDROP_TABLE Wallet (insert_or_replace_retry Wallet Bal db)
    end.
Proof.
  intros Hne. destruct st as [[]|].
  - done.
  - by apply move_to_missing_other.
  - by apply move_to_retry_other.
Qed.

Lemma count_status_cons st s seen :
  count_status st (s :: seen) =
    ((if decide (s = st) then 1 else 0) + count_status st seen)%nat.
Proof. unfold count_status. rewrite filter_cons. by destruct (decide (s = st)). Qed.

(** The loop of the first pass, from any world and any counters. *)
Lemma first_pass_loop rows counts w :
  NoDup rows.*1 ->
  let body := wallets_table_body AIRDROP_TABLE false in
  let run := for_rows body counts rows w in
  let seen := statuses_seen fst body counts rows w in
  committed (conn run.2) = committed (conn w) ∧
  length seen = length rows ∧
  run.1 = (counts.1 + count_status Absent seen,
           counts.2 + count_status Indeterminate seen)%nat ∧
  (∀ other, other ∉ rows.*1 ->
     same_at other (working (conn w)) (working (conn run.2))) ∧
  (∀ i Wallet Bal st, rows !! i = Some (Wallet, Bal) -> seen !! i = Some st ->
     first_pass_policy Wallet Bal st (working (conn w)) (working (conn run.2))).
Proof.
  cbn zeta. revert counts w.
  induction rows as [|[W0 B0] rest IH]; intros counts w Hnd.
  - cbn. destruct counts. repeat split; try done. cbn. f_equal; lia.
  - apply NoDup_cons in Hnd as [Hnotin Hnd]. cbn [for_rows statuses_seen fst].
    rewrite run_bind.
    pose proof (wallets_table_body_run AIRDROP_TABLE false counts W0 B0 w)
      as (Hcom & Hwork & Hcnt).
    set (step := wallets_table_body AIRDROP_TABLE false counts (W0, B0) w) in *.
    set (st0 := (has_trustline W0 w).1) in *. clearbody step st0.
    destruct (IH step.1 step.2 Hnd) as (Hcom' & Hlen & Hres & Hframe & Hpol).
    split; [by rewrite Hcom'|]. split; [cbn [length]; by rewrite Hlen|]. split.
    { rewrite Hres, Hcnt, !count_status_cons.
      destruct st0 as [[]|]; repeat case_decide; try done;
        cbn [fst snd]; f_equal; lia. }
    split.
    + intros other Hother. apply not_elem_of_cons in Hother as [Hne Hother].
      apply (same_at_trans _ _ (working (conn step.2))); [|by apply Hframe].
      rewrite Hwork. by apply first_pass_turn_other.
    + intros i Wallet Bal st Hrow Hseen. destruct i as [|i]; cbn in Hrow, Hseen.
      * injection Hrow as -> ->. injection Hseen as <-.
        apply (first_pass_policy_after _ _ _ _ (working (conn step.2)));
          [|by apply Hframe].
        rewrite Hwork. apply first_pass_policy_turn.
      * apply (first_pass_policy_before _ _ _ _ (working (conn step.2)));
          [|by eapply Hpol].
        rewrite Hwork. apply first_pass_turn_other.
        intros ->. apply Hnotin. apply list_elem_of_fmap.
        exists (Wallet, Bal). split; [done|]. by eapply list_elem_of_lookup_2.
Qed.

(** The pass is its loop over the rows read at its start, and the commit. *)
Lemma process_Wallets_table_run table_name second_pass w :
  let loop := for_rows (wallets_table_body table_name second_pass) (0%nat, 0%nat)
                (select_wallet_balance table_name (working (conn w))) w in
  process_Wallets_table table_name second_pass w =
    (loop.1, mkWorld (net loop.2)
               (mkConn (working (conn loop.2)) (working (conn loop.2)))
               (trace loop.2)).
Proof.
  cbn zeta. unfold process_Wallets_table. by rewrite !run_bind.
Qed.

Lemma process_retry_queue_run w :
  let loop := for_rows retry_queue_body 0%nat
                (select_retry_queue (working (conn w))) w in
  process_retry_queue w =
    (loop.1, mkWorld (net loop.2)
               (mkConn (working (conn loop.2)) (working (conn loop.2)))
               (trace loop.2)).
Proof.
  cbn zeta. unfold process_retry_queue. by rewrite !run_bind.
Qed.

(** C3. In the first pass every wallet of the source table has its turn
    once. A wallet answered Present keeps its row in the source table, and
    the other two tables stay as they were for it. A wallet answered Absent
    is in the missing table with its balance, whatever that table held for
    it before, and no longer in the source table. A wallet answered
    Indeterminate is in the retry table with its balance and no longer in
    the source table. The pass returns the number of wallets answered
    Absent and the number answered Indeterminate, and all of this is
    committed when the pass returns. *)
Theorem first_pass_moves w :
  let rows := map_to_list (tokens (working (conn w))) in
  let seen := statuses_seen fst (wallets_table_body AIRDROP_TABLE false)
                (0%nat, 0%nat) rows w in
  let run := process_Wallets_table AIRDROP_TABLE false w in
  let db := working (conn w) in
  let db' := working (conn run.2) in
  (∀ Wallet Bal, tokens db !! Wallet = Some Bal ↔ (Wallet, Bal) ∈ rows) ∧
  NoDup rows.*1 ∧
  length seen = length rows ∧
  (∀ i Wallet Bal st, rows !! i = Some (Wallet, Bal) -> seen !! i = Some st ->
     match st with
     | Some true =>
         tokens db' !! Wallet = Some Bal ∧
         tokens_missing_tl db' !! Wallet = tokens_missing_tl db !! Wallet ∧
         retry_queue db' !! Wallet = retry_queue db !! Wallet
     | Some false =>
         tokens_missing_tl db' !! Wallet = Some Bal ∧
         tokens db' !! Wallet = None ∧
         retry_queue db' !! Wallet = retry_queue db !! Wallet
     | None =>
         (∃ tries, retry_queue db' !! Wallet = Some (mkRetryRow Bal tries)) ∧
         tokens db' !! Wallet = None ∧
         tokens_missing_tl db' !! Wallet = tokens_missing_tl db !! Wallet
     end) ∧
  run.1 = (count_status Absent seen, count_status Indeterminate seen) ∧
  committed (conn run.2) = db'.
Proof.
  cbn zeta. rewrite process_Wallets_table_run. cbn [fst snd conn working committed].
  cbn [select_wallet_balance].
  pose proof (NoDup_fst_map_to_list (tokens (working (conn w)))) as Hnd.
  destruct (first_pass_loop _ (0%nat, 0%nat) w Hnd) as (_ & Hlen & Hres & _ & Hpol).
  split. { intros Wallet Bal. by rewrite elem_of_map_to_list. }
  split; [done|]. split; [done|]. split; [|by split].
  intros i Wallet Bal st Hrow Hseen.
  specialize (Hpol i Wallet Bal st Hrow Hseen).
  assert (tokens (working (conn w)) !! Wallet = Some Bal) as Hin.
  { apply elem_of_map_to_list. by eapply list_elem_of_lookup_2. }
  destruct st as [[]|]; cbn in Hpol.
  - destruct Hpol as (Ht & Hm & Hr). by rewrite <- Ht, <- Hm, <- Hr.
  - by destruct Hpol as (Ht & Hm & Hr).
  - destruct Hpol as (Ht & Hm & Hr). split; [by eexists|done].
Qed.

(** *** The second pass *)

Lemma second_pass_policy_before Wallet r st db0 db db' :
  same_at Wallet db0 db ->
  second_pass_policy Wallet r st db db' -> second_pass_policy Wallet r st db0 db'.
Proof.
  intros (Ht & Hm & Hr) (Hr' & Ht' & Hm'). unfold second_pass_policy.
  rewrite Ht, Hm. done.
Qed.

Lemma second_pass_policy_after Wallet r st db db1 db' :
  second_pass_policy Wallet r st db db1 -> same_at Wallet db1 db' ->
  second_pass_policy Wallet r st db db'.
Proof.
  intros (Hr' & Ht' & Hm') (Ht & Hm & Hr). unfold second_pass_policy.
  rewrite <- Ht, <- Hm, <- Hr. done.
Qed.

Lemma second_pass_policy_turn Wallet r st db :
  second_pass_policy Wallet r st db
    match st with
    | Some true => delete_from RETRY_QUEUE_TABLE Wallet db
    | Some false | None =>
        delete_from RETRY_QUEUE_TABLE Wallet
          (insert_or_replace_missing Wallet (rr_balance r) db)
    end.
Proof.
  unfold second_pass_policy.
  destruct st as [[]|]; cbn; by rewrite lookup_delete_eq, ?lookup_insert_eq.
Qed.

Lemma second_pass_turn_other Wallet r other st db :
  Wallet ≠ other ->
  same_at other db
    match st with
    | Some true => delete_from RETRY_QUEUE_TABLE Wallet db
    | Some false | None =>
        delete_from RETRY_QUEUE_TABLE Wallet
          (insert_or_replace_missing Wallet (rr_balance r) db)
    end.
Proof.
  intros Hne. destruct st as [[]|].
  - by apply delete_from_other.
  - by apply move_to_missing_other.
  - by apply move_to_missing_other.
Qed.

(** The loop of the second pass, from any world and any counter. *)
Lemma second_pass_loop rows moved w :
  NoDup rows.*1 ->
  let run := for_rows retry_queue_body moved rows w in
  let seen := statuses_seen fst retry_queue_body moved rows w in
  committed (conn run.2) = committed (conn w) ∧
  length seen = length rows ∧
  run.1 = (moved + count_status Absent seen + count_status Indeterminate seen)%nat ∧
  (∀ other, other ∉ rows.*1 ->
     same_at other (working (conn w)) (working (conn run.2))) ∧
  (∀ i Wallet r st, rows !! i = Some (Wallet, r) -> seen !! i = Some st ->
     second_pass_policy Wallet r st (working (conn w)) (working (conn run.2))).
Proof.
  cbn zeta. revert moved w.
  induction rows as [|[W0 r0] rest IH]; intros moved w Hnd.
  - cbn. repeat split; try done. lia.
  - apply NoDup_cons in Hnd as [Hnotin Hnd]. cbn [for_rows statuses_seen fst].
    rewrite run_bind.
    pose proof (retry_queue_body_run moved W0 r0 w) as (Hcom & Hwork & Hcnt).
    set (step := retry_queue_body moved (W0, r0) w) in *.
    set (st0 := (has_trustline W0 w).1) in *. clearbody step st0.
    destruct (IH step.1 step.2 Hnd) as (Hcom' & Hlen & Hres & Hframe & Hpol).
    split; [by rewrite Hcom'|]. split; [cbn [length]; by rewrite Hlen|]. split.
    { rewrite Hres, Hcnt, !count_status_cons.
      destruct st0 as [[]|]; repeat case_decide; try done; lia. }
    split.
    + intros other Hother. apply not_elem_of_cons in Hother as [Hne Hother].
      apply (same_at_trans _ _ (working (conn step.2))); [|by apply Hframe].
      rewrite Hwork. by apply second_pass_turn_other.
    + intros i Wallet r st Hrow Hseen. destruct i as [|i]; cbn in Hrow, Hseen.
      * injection Hrow as -> ->. injection Hseen as <-.
        apply (second_pass_policy_after _ _ _ _ (working (conn step.2)));
          [|by apply Hframe].
        rewrite Hwork. apply second_pass_policy_turn.
      * apply (second_pass_policy_before _ _ _ _ (working (conn step.2)));
          [|by eapply Hpol].
        rewrite Hwork. apply second_pass_turn_other.
        intros ->. apply Hnotin. apply list_elem_of_fmap.
        exists (Wallet, r). split; [done|]. by eapply list_elem_of_lookup_2.
Qed.

(** Every row read at the start of the second pass is gone at its end:
    the retry table is empty. *)
Lemma second_pass_empties w :
  retry_queue (working (conn (process_retry_queue w).2)) = ∅.
Proof.
  rewrite process_retry_queue_run. cbn [snd conn working].
  unfold select_retry_queue.
  pose proof (NoDup_fst_map_to_list (retry_queue (working (conn w)))) as Hnd.
  destruct (second_pass_loop _ 0%nat w Hnd) as (_ & Hlen & _ & Hframe & Hpol).
  apply map_eq. intros Wallet. rewrite lookup_empty.
  destruct (retry_queue (working (conn w)) !! Wallet) as [r|] eqn:Hr.
  - apply elem_of_map_to_list, list_elem_of_lookup_1 in Hr as [i Hi].
    destruct (lookup_lt_is_Some_2
                (statuses_seen fst retry_queue_body 0%nat
                   (map_to_list (retry_queue (working (conn w)))) w) i) as [st Hst].
    { rewrite Hlen. by eapply lookup_lt_Some. }
    by destruct (Hpol i Wallet r st Hi Hst) as [Hgone _].
  - destruct (Hframe Wallet) as (_ & _ & <-); [|done].
    intros Hin. apply list_elem_of_fmap in Hin as ([W' r] & -> & Hin).
    apply elem_of_map_to_list in Hin. cbn in Hr. congruence.
Qed.

(** *** Counting the classifications *)

Lemma fetches_of_snoc wallet evs e :
  fetches_of wallet (evs ++ [e]) =
    (fetches_of wallet evs + if is_fetch_start wallet e then 1 else 0)%nat.
Proof.
  unfold fetches_of. rewrite filter_app, length_app. f_equal.
  rewrite filter_cons, filter_nil. by destruct (is_fetch_start wallet e).
Qed.

Lemma attempt_loop_fetches W wallet node attempts w :
  fetches_of W (trace (attempt_loop wallet node attempts w).2) = fetches_of W (trace w).
Proof.
  revert w. induction attempts as [|attempt rest IH]; intros w; [done|].
  cbn [attempt_loop]. rewrite run_bind. unfold client_request at 1 2.
  destruct (request node wallet (net w)) as [resp n']. cbn [fst snd].
  destruct resp as [|[] result]; rewrite ?run_bind; cbn [log emit sleep fst snd];
    rewrite ?IH; cbn [trace mret M_ret snd]; rewrite !fetches_of_snoc; cbn; lia.
Qed.

Lemma node_loop_fetches W wallet nodes w :
  Forall (fun node => Some node ≠ head NODES) nodes ->
  fetches_of W (trace (node_loop wallet nodes w).2) = fetches_of W (trace w).
Proof.
  revert w. induction nodes as [|node_url rest IH]; intros w Hnodes.
  - cbn [node_loop]. rewrite run_bind. cbn. by rewrite fetches_of_snoc, Nat.add_0_r.
  - apply Forall_cons in Hnodes as [Hnode Hrest].
    cbn [node_loop]. rewrite !run_bind. cbn [log emit fst snd].
    set (w1 := mkWorld _ _ _).
    pose proof (attempt_loop_fetches W wallet node_url (seq 1 max_retries_per_node) w1)
      as Hloop.
    destruct (attempt_loop wallet node_url (seq 1 max_retries_per_node) w1)
      as [[lines|] w2]; cbn [fst snd] in *.
    + cbn. rewrite Hloop. subst w1. cbn [trace]. rewrite fetches_of_snoc. cbn.
      rewrite (bool_decide_eq_false_2 (Some node_url = _)) by done.
      rewrite andb_false_r. lia.
    + rewrite run_bind. cbn [log emit fst snd]. rewrite (IH _ Hrest). cbn [trace].
      rewrite fetches_of_snoc, Hloop. subst w1. cbn [trace].
      rewrite fetches_of_snoc. cbn.
      rewrite (bool_decide_eq_false_2 (Some node_url = _)) by done.
      rewrite andb_false_r. lia.
Qed.

Lemma node_loop_cons wallet node_url rest :
  node_loop wallet (node_url :: rest) =
    (log INFO (TryingNode wallet node_url);;
     r ← attempt_loop wallet node_url (seq 1 max_retries_per_node);
     match r with
     | Some lines => mret (Some lines)
     | None => log WARNING (NodeFailedAll wallet node_url);; node_loop wallet rest
     end).
Proof. reflexivity. Qed.

(** One call of [has_trustline] is one classification of its wallet and
    none of another. *)
Lemma has_trustline_fetches W wallet w :
  fetches_of W (trace (has_trustline wallet w).2) =
    (fetches_of W (trace w) + if decide (wallet = W) then 1 else 0)%nat.
Proof.
  rewrite has_trustline_run. cbn [snd]. unfold fetch_trustlines_with_failover.
  assert (Forall (fun node => Some node ≠ head NODES)
            ["https://s2.ripple.com:51234/"; "https://xrpl.link/"]) as Htail.
  { cbn. repeat constructor; by intros [=]. }
  unfold NODES at 1. rewrite node_loop_cons, !run_bind. cbn [log emit fst snd].
  set (w1 := mkWorld _ _ _).
  pose proof (attempt_loop_fetches W wallet "https://xrplcluster.com/"
                (seq 1 max_retries_per_node) w1) as Hloop.
  assert (fetches_of W (trace w1) =
          (fetches_of W (trace w) + if decide (wallet = W) then 1 else 0)%nat) as Hw1.
  { subst w1. cbn [trace]. rewrite fetches_of_snoc. cbn.
    rewrite andb_true_r. by destruct (decide (wallet = W)); case_bool_decide. }
  destruct (attempt_loop wallet "https://xrplcluster.com/"
              (seq 1 max_retries_per_node) w1) as [[lines|] w2]; cbn [fst snd] in *.
  - cbn. by rewrite Hloop.
  - rewrite run_bind. cbn [log emit fst snd].
    rewrite (node_loop_fetches _ _ _ _ Htail). cbn [trace].
    rewrite fetches_of_snoc, Hloop, Hw1. cbn. lia.
Qed.

Lemma wallets_table_body_fetches W table_name second_pass counts Wallet Bal w :
  fetches_of W
    (trace (wallets_table_body table_name second_pass counts (Wallet, Bal) w).2) =
    (fetches_of W (trace w) + if decide (Wallet = W) then 1 else 0)%nat.
Proof.
  unfold wallets_table_body. destruct counts as [mm mr].
  rewrite !run_bind. cbn [sleep fst snd].
  pose proof (has_trustline_fetches W Wallet w) as Hf.
  destruct (has_trustline Wallet w) as [st w1]. cbn [fst snd] in *.
  destruct st as [[]|]; [| |destruct second_pass];
    rewrite ?run_bind; cbn; rewrite ?fetches_of_snoc, Hf; cbn; lia.
Qed.

Lemma retry_queue_body_fetches W moved Wallet r w :
  fetches_of W (trace (retry_queue_body moved (Wallet, r) w).2) =
    (fetches_of W (trace w) + if decide (Wallet = W) then 1 else 0)%nat.
Proof.
  unfold retry_queue_body.
  rewrite !run_bind. cbn [sleep fst snd].
  pose proof (has_trustline_fetches W Wallet w) as Hf.
  destruct (has_trustline Wallet w) as [st w1]. cbn [fst snd] in *.
  destruct st as [[]|]; rewrite ?run_bind; cbn; rewrite ?fetches_of_snoc, Hf; cbn; lia.
Qed.

(** A loop over rows with distinct wallets classifies a wallet once at most. *)
Lemma for_rows_fetches {R A : Type} (body : A -> string * R -> M Net A)
    (W : string) (rows : list (string * R)) (acc : A) w :
  (∀ acc Wallet x w,
     fetches_of W (trace (body acc (Wallet, x) w).2) =
       (fetches_of W (trace w) + if decide (Wallet = W) then 1 else 0)%nat) ->
  NoDup rows.*1 ->
  (fetches_of W (trace (for_rows body acc rows w).2) <= fetches_of W (trace w) + 1)%nat ∧
  (W ∉ rows.*1 ->
   fetches_of W (trace (for_rows body acc rows w).2) = fetches_of W (trace w)).
Proof.
  intros Hbody. revert acc w.
  induction rows as [|[W0 x0] rest IH]; intros acc w Hnd.
  - cbn. split; [lia|done].
  - apply NoDup_cons in Hnd as [Hnotin Hnd]. cbn [for_rows]. rewrite run_bind.
    destruct (IH (body acc (W0, x0) w).1 (body acc (W0, x0) w).2 Hnd) as [Hle Heq].
    rewrite Hbody in Hle, Heq. split.
    + destruct (decide (W0 = W)) as [->|Hne].
      * rewrite Heq by done. lia.
      * lia.
    + intros Hnot. apply not_elem_of_cons in Hnot as [Hne Hnot].
      rewrite (Heq Hnot). destruct (decide (W0 = W)); [done|lia].
Qed.

Lemma process_Wallets_table_fetches W w :
  (fetches_of W (trace (process_Wallets_table AIRDROP_TABLE false w).2)
     <= fetches_of W (trace w) + 1)%nat.
Proof.
  rewrite process_Wallets_table_run. cbn [snd trace select_wallet_balance].
  apply for_rows_fetches.
  - intros. apply wallets_table_body_fetches.
  - apply NoDup_fst_map_to_list.
Qed.

Lemma process_retry_queue_fetches W w :
  (fetches_of W (trace (process_retry_queue w).2) <= fetches_of W (trace w) + 1)%nat.
Proof.
  rewrite process_retry_queue_run. cbn [snd trace]. unfold select_retry_queue.
  apply for_rows_fetches.
  - intros. apply retry_queue_body_fetches.
  - apply NoDup_fst_map_to_list.
Qed.

(** *** main *)

(** The world in which the first pass of [main] starts. *)
Lemma main_first_pass_run w :
  let w1 := mkWorld (net w) (mkConn (working (conn w)) (working (conn w)))
              (trace w ++ [Logged INFO FirstPassStart]) in
  let p1 := process_Wallets_table AIRDROP_TABLE false w1 in
  main_first_pass w =
    (p1.1, mkWorld (net p1.2) (conn p1.2)
             (trace p1.2 ++ [Logged INFO (FirstPassDone p1.1.1 p1.1.2)])).
Proof.
  cbn zeta. unfold main_first_pass, ensure_tables. by rewrite !run_bind.
Qed.

Lemma main_second_pass_run v :
  let v1 := mkWorld (net v) (conn v) (trace v ++ [Logged INFO SecondPassStart]) in
  let p2 := process_retry_queue v1 in
  main_second_pass v =
    (tt, mkWorld (net p2.2) (conn p2.2)
           (trace p2.2 ++ [Logged INFO (SecondPassDone p2.1)])).
Proof. cbn zeta. unfold main_second_pass. by rewrite !run_bind. Qed.

Lemma main_run w :
  let p1 := main_first_pass w in
  main w =
    (close ≫= fun _ => log INFO AllDone)
      (if (0 <? p1.1.2)%nat then (main_second_pass p1.2).2 else p1.2).
Proof.
  cbn zeta. unfold main. rewrite !run_bind.
  by destruct (0 <? (main_first_pass w).1.2)%nat.
Qed.

Lemma main_fetches W w :
  (fetches_of W (trace (main w).2) <= fetches_of W (trace w) + 2)%nat.
Proof.
  rewrite main_run, run_bind. cbn [close log emit fst snd trace].
  rewrite fetches_of_snoc, Nat.add_0_r.
  pose proof (main_first_pass_run w) as Hp1. cbn zeta in Hp1.
  set (w1 := mkWorld _ _ _) in Hp1.
  pose proof (process_Wallets_table_fetches W w1) as H1.
  subst w1. cbn [trace] in H1. rewrite fetches_of_snoc, Nat.add_0_r in H1.
  rewrite Hp1. cbn [fst snd].
  set (p1 := process_Wallets_table AIRDROP_TABLE false _) in *.
  destruct (0 <? p1.1.2)%nat.
  - rewrite main_second_pass_run. cbn [fst snd trace].
    rewrite fetches_of_snoc, Nat.add_0_r.
    etrans; [apply process_retry_queue_fetches|]. cbn [trace].
    rewrite !fetches_of_snoc, !Nat.add_0_r. lia.
  - cbn [trace]. rewrite fetches_of_snoc, Nat.add_0_r. lia.
Qed.

(** C4. [main] runs the second pass exactly when the first pass returned
    [moved_retry > 0]. The second pass, from whatever world it starts in,
    gives every row of the retry table its turn once: the row is deleted
    from the retry table whatever the answer; on Present the missing table
    stays as it was for the wallet, on Absent and on Indeterminate alike the
    wallet is in the missing table with the balance of the row. The pass
    returns the number of rows answered Absent or Indeterminate, leaves the
    retry table empty and commits. In one run of [main] no wallet is
    classified more than twice. *)
Theorem second_pass_resolves w v :
  (let p1 := main_first_pass w in
   main w =
     (close ≫= fun _ => log INFO AllDone)
       (if (0 <? p1.1.2)%nat then (main_second_pass p1.2).2 else p1.2)) ∧
  (let v1 := mkWorld (net v) (conn v) (trace v ++ [Logged INFO SecondPassStart]) in
   conn (main_second_pass v).2 = conn (process_retry_queue v1).2) ∧
  (let rows := map_to_list (retry_queue (working (conn v))) in
   let seen := statuses_seen fst retry_queue_body 0%nat rows v in
   let run := process_retry_queue v in
   let db := working (conn v) in
   let db' := working (conn run.2) in
   (∀ Wallet r, retry_queue db !! Wallet = Some r ↔ (Wallet, r) ∈ rows) ∧
   NoDup rows.*1 ∧
   length seen = length rows ∧
   (∀ i Wallet r st, rows !! i = Some (Wallet, r) -> seen !! i = Some st ->
      retry_queue db' !! Wallet = None ∧
      tokens db' !! Wallet = tokens db !! Wallet ∧
      match st with
      | Some true =>
          tokens_missing_tl db' !! Wallet = tokens_missing_tl db !! Wallet
      | Some false | None =>
          tokens_missing_tl db' !! Wallet = Some (rr_balance r)
      end) ∧
   run.1 = (count_status Absent seen + count_status Indeterminate seen)%nat ∧
   retry_queue db' = ∅ ∧
   committed (conn run.2) = db') ∧
  (∀ Wallet,
     (fetches_of Wallet (trace (main w).2) <= fetches_of Wallet (trace w) + 2)%nat).
Proof.
  split; [apply main_run|]. split.
  { cbn zeta. by rewrite main_second_pass_run. }
  split; [|intros; apply main_fetches].
  cbn zeta. pose proof (second_pass_empties v) as Hempty.
  rewrite process_retry_queue_run in *. cbn [fst snd conn working committed] in *.
  unfold select_retry_queue in *.
  pose proof (NoDup_fst_map_to_list (retry_queue (working (conn v)))) as Hnd.
  destruct (second_pass_loop _ 0%nat v Hnd) as (_ & Hlen & Hres & _ & Hpol).
  split. { intros Wallet r. by rewrite elem_of_map_to_list. }
  split; [done|]. split; [done|]. split; [|by rewrite Hres].
  intros i Wallet r st Hrow Hseen. apply (Hpol i Wallet r st Hrow Hseen).
Qed.

(** *** Where a wallet is *)

Lemma residency_same_at wallet db db' :
  same_at wallet db db' -> residency db' wallet = residency db wallet.
Proof. intros (Ht & Hm & Hr). unfold residency. by rewrite Ht, Hm, Hr. Qed.

Lemma residency_source wallet db :
  residency db wallet = [AIRDROP_TABLE] ↔
  is_Some (tokens db !! wallet) ∧ tokens_missing_tl db !! wallet = None
  ∧ retry_queue db !! wallet = None.
Proof.
  unfold residency.
  destruct (tokens db !! wallet), (tokens_missing_tl db !! wallet),
    (retry_queue db !! wallet); cbn; split;
    try (intros (? & ? & ?)); try done; try (by intros [=]);
    try (by exfalso; eapply is_Some_None).
Qed.

Lemma residency_retry wallet db :
  in_one_table db wallet -> is_Some (retry_queue db !! wallet) ->
  tokens db !! wallet = None ∧ tokens_missing_tl db !! wallet = None.
Proof.
  intros [t Ht] [r Hr]. unfold residency in Ht. rewrite Hr in Ht.
  by destruct (tokens db !! wallet), (tokens_missing_tl db !! wallet).
Qed.

Lemma row_of_key {R : Type} (rows : list (string * R)) wallet :
  wallet ∈ rows.*1 -> ∃ i x, rows !! i = Some (wallet, x).
Proof.
  intros Hin. apply list_elem_of_fmap in Hin as ([W x] & -> & Hin).
  apply list_elem_of_lookup in Hin as [i Hi]. by exists i, x.
Qed.

Lemma key_of_row {R : Type} (rows : list (string * R)) i wallet x :
  rows !! i = Some (wallet, x) -> wallet ∈ rows.*1.
Proof.
  intros Hi. apply list_elem_of_fmap. exists (wallet, x).
  split; [done|]. by eapply list_elem_of_lookup_2.
Qed.

Lemma NoDup_take_keys {R : Type} (rows : list (string * R)) k :
  NoDup rows.*1 -> NoDup (take k rows).*1.
Proof. intros Hnd. rewrite fmap_take. eapply sublist_NoDup; [done|apply sublist_take]. Qed.

Lemma statuses_seen_take {R A : Type} (key : R -> string)
    (body : A -> R -> M Net A) acc rows w k :
  statuses_seen key body acc (take k rows) w
    = take k (statuses_seen key body acc rows w).
Proof.
  revert acc w k. induction rows as [|row rest IH]; intros acc w [|k]; try done.
  cbn [take statuses_seen]. by rewrite IH.
Qed.

Lemma statuses_seen_length {R A : Type} (key : R -> string)
    (body : A -> R -> M Net A) acc rows w :
  length (statuses_seen key body acc rows w) = length rows.
Proof.
  revert acc w. induction rows as [|row rest IH]; intros acc w; [done|].
  cbn [statuses_seen length]. by rewrite IH.
Qed.

Lemma count_status_pos st seen i :
  seen !! i = Some st -> (0 < count_status st seen)%nat.
Proof.
  revert i. induction seen as [|s seen IH]; intros i Hi; [done|].
  rewrite count_status_cons. destruct i as [|i]; cbn in Hi.
  - injection Hi as ->. rewrite decide_True by done. lia.
  - apply IH in Hi. lia.
Qed.

(** Where a wallet of the source table is after the turns of [rows] in the
    first pass. *)
Lemma first_pass_residency rows counts w wallet :
  NoDup rows.*1 ->
  residency (working (conn w)) wallet = [AIRDROP_TABLE] ->
  let body := wallets_table_body AIRDROP_TABLE false in
  let run := for_rows body counts rows w in
  let seen := statuses_seen fst body counts rows w in
  (wallet ∉ rows.*1 -> residency (working (conn run.2)) wallet = [AIRDROP_TABLE]) ∧
  (∀ i Bal st, rows !! i = Some (wallet, Bal) -> seen !! i = Some st ->
     residency (working (conn run.2)) wallet =
       match st with
       | Some true => [AIRDROP_TABLE]
       | Some false => [MISSING_TL_TABLE]
       | None => [RETRY_QUEUE_TABLE]
       end).
Proof.
  intros Hnd Hres. cbn zeta.
  destruct (first_pass_loop rows counts w Hnd) as (_ & _ & _ & Hframe & Hpol).
  split.
  - intros Hnot. by rewrite (residency_same_at _ _ _ (Hframe _ Hnot)).
  - intros i Bal st Hrow Hseen. specialize (Hpol i wallet Bal st Hrow Hseen).
    pose proof Hres as (_ & Hm & Hr)%residency_source.
    destruct st as [[]|]; cbn in Hpol.
    + by rewrite (residency_same_at _ _ _ Hpol).
    + destruct Hpol as (Ht' & Hm' & Hr'). unfold residency.
      by rewrite Ht', Hm', Hr', Hr.
    + destruct Hpol as (Ht' & Hm' & Hr'). unfold residency.
      by rewrite Ht', Hm', Hr', Hm.
Qed.

(** After any number of turns of the first pass the wallet is in one
    table, and nothing of it is committed. *)
Lemma first_pass_killed_residency k w wallet :
  residency (working (conn w)) wallet = [AIRDROP_TABLE] ->
  let st := (process_Wallets_table_killed AIRDROP_TABLE false k w).2 in
  in_one_table (working (conn st)) wallet ∧
  committed (conn st) = committed (conn w).
Proof.
  intros Hres. cbn zeta. unfold process_Wallets_table_killed.
  rewrite run_bind. cbn [query fst snd select_wallet_balance].
  set (rows := map_to_list (tokens (working (conn w)))).
  assert (NoDup (take k rows).*1) as Hnd.
  { apply NoDup_take_keys, NoDup_fst_map_to_list. }
  destruct (first_pass_loop _ (0%nat, 0%nat) w Hnd) as (Hcom & Hlen & _).
  destruct (first_pass_residency _ (0%nat, 0%nat) w wallet Hnd Hres) as [Hout Hin].
  split; [|done].
  destruct (decide (wallet ∈ (take k rows).*1)) as [Hel|Hel].
  - apply row_of_key in Hel as (i & Bal & Hi).
    destruct (lookup_lt_is_Some_2
                (statuses_seen fst (wallets_table_body AIRDROP_TABLE false)
                   (0%nat, 0%nat) (take k rows) w) i) as [st Hst].
    { rewrite Hlen. by eapply lookup_lt_Some. }
    unfold in_one_table. rewrite (Hin i Bal st Hi Hst).
    destruct st as [[]|]; by eexists.
  - unfold in_one_table. rewrite (Hout Hel). by eexists.
Qed.

(** After the whole first pass the wallet is in the source table or in the
    missing table, or it is in the retry table and the pass returned
    [moved_retry > 0]. *)
Lemma first_pass_done_residency w wallet :
  residency (working (conn w)) wallet = [AIRDROP_TABLE] ->
  let run := process_Wallets_table AIRDROP_TABLE false w in
  committed (conn run.2) = working (conn run.2) ∧
  (residency (working (conn run.2)) wallet = [AIRDROP_TABLE] ∨
   residency (working (conn run.2)) wallet = [MISSING_TL_TABLE] ∨
   (residency (working (conn run.2)) wallet = [RETRY_QUEUE_TABLE] ∧ (0 < run.1.2)%nat)).
Proof.
  intros Hres. cbn zeta. rewrite process_Wallets_table_run.
  cbn [fst snd conn working committed select_wallet_balance]. split; [done|].
  set (rows := map_to_list (tokens (working (conn w)))).
  pose proof (NoDup_fst_map_to_list (tokens (working (conn w)))) as Hnd.
  destruct (first_pass_loop _ (0%nat, 0%nat) w Hnd) as (_ & Hlen & Hcnt & _).
  destruct (first_pass_residency _ (0%nat, 0%nat) w wallet Hnd Hres) as [_ Hin].
  fold rows in Hlen, Hcnt, Hin.
  pose proof Hres as ([Bal HBal] & _)%residency_source.
  apply elem_of_map_to_list, list_elem_of_lookup_1 in HBal as [i Hi].
  destruct (lookup_lt_is_Some_2
              (statuses_seen fst (wallets_table_body AIRDROP_TABLE false)
                 (0%nat, 0%nat) rows w) i) as [st Hst].
  { rewrite Hlen. by eapply lookup_lt_Some. }
  rewrite (Hin i Bal st Hi Hst). destruct st as [[]|]; [by left|by right; left|].
  right; right. split; [done|]. rewrite Hcnt. cbn [snd].
  by apply count_status_pos in Hst.
Qed.

(** After any number of turns of the second pass the wallet is in one
    table, or in none after an answer Present in one of these turns. *)
Lemma second_pass_killed_residency k v wallet :
  in_one_table (working (conn v)) wallet ->
  let rows := map_to_list (retry_queue (working (conn v))) in
  let seen := statuses_seen fst retry_queue_body 0%nat rows v in
  let st := (process_retry_queue_killed k v).2 in
  committed (conn st) = committed (conn v) ∧
  (in_one_table (working (conn st)) wallet ∧
   (retry_queue (working (conn v)) !! wallet = None ∨
    residency (working (conn st)) wallet = [MISSING_TL_TABLE] ∨
    (k < length rows)%nat)
   ∨
   residency (working (conn st)) wallet = [] ∧
   ∃ i r, (i < k)%nat ∧ rows !! i = Some (wallet, r) ∧ seen !! i = Some Present).
Proof.
  intros Hone. cbn zeta. unfold process_retry_queue_killed.
  rewrite run_bind. cbn [query fst snd]. unfold select_retry_queue.
  set (rows := map_to_list (retry_queue (working (conn v)))).
  assert (NoDup (take k rows).*1) as Hnd.
  { apply NoDup_take_keys, NoDup_fst_map_to_list. }
  destruct (second_pass_loop _ 0%nat v Hnd) as (Hcom & Hlen & _ & Hframe & Hpol).
  split; [done|].
  destruct (decide (wallet ∈ (take k rows).*1)) as [Hel|Hel].
  - apply row_of_key in Hel as (i & r & Hi).
    destruct (lookup_lt_is_Some_2
                (statuses_seen fst retry_queue_body 0%nat (take k rows) v) i)
      as [st Hst].
    { rewrite Hlen. by eapply lookup_lt_Some. }
    destruct (Hpol i wallet r st Hi Hst) as (Hr' & Ht' & Hm').
    apply lookup_take_Some in Hi as [Hi Hik].
    assert (retry_queue (working (conn v)) !! wallet = Some r) as Hr.
    { apply elem_of_map_to_list. by eapply list_elem_of_lookup_2. }
    destruct (residency_retry _ _ Hone) as [Ht Hm]; [by rewrite Hr|].
    rewrite statuses_seen_take in Hst. apply lookup_take_Some in Hst as [Hst _].
    rewrite Ht in Ht'.
    destruct st as [[]|].
    + right. split.
      { unfold residency. by rewrite Hr', Ht', Hm', Hm. }
      by exists i, r.
    + left. assert (residency
               (working (conn (for_rows retry_queue_body 0%nat (take k rows) v).2))
               wallet = [MISSING_TL_TABLE]) as Hres.
      { unfold residency. by rewrite Hr', Ht', Hm'. }
      split; [by eexists|]. by right; left.
    + left. assert (residency
               (working (conn (for_rows retry_queue_body 0%nat (take k rows) v).2))
               wallet = [MISSING_TL_TABLE]) as Hres.
      { unfold residency. by rewrite Hr', Ht', Hm'. }
      split; [by eexists|]. by right; left.
  - left. split.
    { destruct Hone as [t Ht]. exists t.
      by rewrite (residency_same_at _ _ _ (Hframe _ Hel)). }
    destruct (retry_queue (working (conn v)) !! wallet) as [r|] eqn:Hr; [|by left].
    right; right.
    apply elem_of_map_to_list, list_elem_of_lookup_1 in Hr as [i Hi].
    fold rows in Hi. destruct (decide (k < length rows)%nat) as [|Hge]; [done|].
    exfalso. apply Hel. rewrite take_ge by lia. by eapply key_of_row.
Qed.

Lemma residency_not_retry wallet db :
  in_one_table db wallet -> retry_queue db !! wallet = None ->
  residency db wallet = [AIRDROP_TABLE] ∨ residency db wallet = [MISSING_TL_TABLE].
Proof.
  intros [t Ht] Hr. unfold residency in *. rewrite Hr in *.
  destruct (tokens db !! wallet), (tokens_missing_tl db !! wallet);
    cbn in *; try done; [by left|by right].
Qed.

(** C5 (amended). A wallet that starts in the source table and in no other table is,
    after every turn of the first pass and after that pass, in exactly one
    of the three tables; after every turn of the second pass it is in
    exactly one table, or in none and one of these turns answered Present
    for it. What is committed holds the wallet in one table at most all
    along. After [main] the wallet is in the source table only, or in the
    missing table only, or in no table after an answer Present in the
    second pass; it is never left in the retry table. *)
Theorem wallet_residency w wallet :
  residency (working (conn w)) wallet = [AIRDROP_TABLE] ->
  let w1 := mkWorld (net w) (mkConn (working (conn w)) (working (conn w)))
              (trace w ++ [Logged INFO FirstPassStart]) in
  let p1 := main_first_pass w in
  let v1 := mkWorld (net p1.2) (conn p1.2)
              (trace p1.2 ++ [Logged INFO SecondPassStart]) in
  let rows2 := map_to_list (retry_queue (working (conn v1))) in
  let seen2 := statuses_seen fst retry_queue_body 0%nat rows2 v1 in
  let confirmed := fun k =>
    ∃ i r, (i < k)%nat ∧ rows2 !! i = Some (wallet, r) ∧ seen2 !! i = Some Present in
  (∀ k, let st := (process_Wallets_table_killed AIRDROP_TABLE false k w1).2 in
     in_one_table (working (conn st)) wallet ∧
     residency (committed (conn st)) wallet = [AIRDROP_TABLE]) ∧
  (in_one_table (working (conn p1.2)) wallet ∧
   committed (conn p1.2) = working (conn p1.2)) ∧
  ((0 < p1.1.2)%nat ->
   ∀ k, let st := (process_retry_queue_killed k v1).2 in
     (in_one_table (working (conn st)) wallet ∨
      residency (working (conn st)) wallet = [] ∧ confirmed k) ∧
     in_one_table (committed (conn st)) wallet) ∧
  (let db := working (conn (main w).2) in
   committed (conn (main w).2) = db ∧
   (residency db wallet = [AIRDROP_TABLE] ∨
    residency db wallet = [MISSING_TL_TABLE] ∨
    residency db wallet = [] ∧ (0 < p1.1.2)%nat ∧ confirmed (length rows2))).
Proof.
  intros Hres. cbn zeta.
  rewrite main_run, main_first_pass_run. cbn [fst snd conn net trace].
  set (w1 := mkWorld _ _ (trace w ++ [Logged INFO FirstPassStart])).
  assert (residency (working (conn w1)) wallet = [AIRDROP_TABLE]) as Hres1 by done.
  destruct (first_pass_done_residency w1 wallet Hres1) as [Hcom1 Hdone1].
  set (p1 := process_Wallets_table AIRDROP_TABLE false w1) in *.
  assert (in_one_table (working (conn p1.2)) wallet) as Hone1.
  { destruct Hdone1 as [?|[?|[? _]]]; by eexists. }
  set (v1 := mkWorld (net p1.2) (conn p1.2) (_ ++ [Logged INFO SecondPassStart])).
  split; [|split; [done|split]].
  - intros k. destruct (first_pass_killed_residency k w1 wallet Hres1) as [Hone Hcom].
    split; [done|]. by rewrite Hcom.
  - intros _ k.
    destruct (second_pass_killed_residency k v1 wallet Hone1) as [Hcom Hcases].
    split; [|by rewrite Hcom; cbn [v1 conn]; rewrite Hcom1].
    destruct Hcases as [[Hone _]|Hnone]; [by left|by right].
  - rewrite run_bind. cbn [close log emit fst snd conn working committed].
    destruct (0 <? p1.1.2)%nat eqn:Hretry.
    + apply Nat.ltb_lt in Hretry. split; [done|].
      rewrite main_second_pass_run. cbn [fst snd conn net trace].
      fold v1.
      pose proof (second_pass_empties v1) as Hempty.
      destruct (second_pass_killed_residency
                  (length (map_to_list (retry_queue (working (conn v1))))) v1
                  wallet Hone1) as [_ Hcases].
      unfold process_retry_queue_killed in Hcases. rewrite run_bind in Hcases.
      cbn [query fst snd] in Hcases. unfold select_retry_queue in Hcases.
      rewrite take_ge in Hcases by done.
      rewrite process_retry_queue_run in *.
      cbn [fst snd conn working committed] in *. unfold select_retry_queue in *.
      destruct Hcases as [[Hone _]|[Hnone Hconf]].
      * destruct (residency_not_retry _ _ Hone) as [?|?];
          [by rewrite Hempty, lookup_empty|by left|by right; left].
      * right; right. done.
    + apply Nat.ltb_ge in Hretry. cbn [conn committed]. split; [done|].
      rewrite Hcom1. destruct Hdone1 as [?|[?|[_ Hpos]]]; [by left|by right; left|lia].
Qed.

(** *** A fetch that ends with a success *)

Lemma fetch_ends_with_success wallet w evs0 node result :
  trace (fetch_trustlines_with_failover wallet w).2
    = trace w ++ evs0 ++ [Requested node wallet (Replied true result)] ->
  (fetch_trustlines_with_failover wallet w).1 = Some (result_lines result).
Proof.
  unfold fetch_trustlines_with_failover. intros Htr.
  destruct (node_loop wallet NODES w) as [r w'] eqn:Hrun. cbn [fst snd] in *.
  apply node_loop_run in Hrun as (_ & evs & Htr' & Hspec).
  rewrite Htr' in Htr. apply app_inv_head in Htr. subst evs.
  destruct r as [lines|].
  - destruct Hspec as (evs1 & node1 & result1 & Heq & -> & _).
    apply app_inj_tail in Heq as [_ Heq]. by injection Heq as _ ->.
  - destruct Hspec as [_ Hall]. rewrite calls_of_app, Forall_app in Hall.
    destruct Hall as [_ Hall]. rewrite calls_of_requested, calls_of_nil in Hall.
    inversion Hall as [|? ? Hx _]. by cbn in Hx.
Qed.

(** C10. When the fetch for a wallet ends with a successful response
    whose result has no ["lines"] field, it returns the empty list, the
    classifier answers Absent, and the turn of the wallet in the first
    pass puts it in the missing table with its balance, deletes it from
    the source table, counts it as moved to the missing table and leaves
    the retry table as it was. *)
Theorem successful_without_lines_is_absent wallet w evs0 node result Bal counts :
  trace (fetch_trustlines_with_failover wallet w).2
    = trace w ++ evs0 ++ [Requested node wallet (Replied true result)] ->
  result !! "lines" = None ->
  (fetch_trustlines_with_failover wallet w).1 = Some [] ∧
  (has_trustline wallet w).1 = Absent ∧
  let step := wallets_table_body AIRDROP_TABLE false counts (wallet, Bal) w in
  step.1 = (S counts.1, counts.2) ∧
  tokens_missing_tl (working (conn step.2)) !! wallet = Some Bal ∧
  tokens (working (conn step.2)) !! wallet = None ∧
  retry_queue (working (conn step.2)) = retry_queue (working (conn w)).
Proof.
  intros Htr Hlines.
  assert ((fetch_trustlines_with_failover wallet w).1 = Some []) as Hfetch.
  { rewrite (fetch_ends_with_success _ _ _ _ _ Htr). unfold result_lines.
    by rewrite Hlines. }
  assert ((has_trustline wallet w).1 = Absent) as Hst.
  { rewrite has_trustline_run. cbn [fst]. by rewrite Hfetch. }
  split; [done|]. split; [done|]. cbn zeta.
  destruct (wallets_table_body_run AIRDROP_TABLE false counts wallet Bal w)
    as (_ & -> & ->).
  rewrite Hst. cbn. by rewrite lookup_insert_eq, lookup_delete_eq.
Qed.

(** *** The retry counter *)

(** C9 (amended). A wallet that the first pass answers Indeterminate gets
    a row in the retry table with its balance and with the [tries] of the
    row the table held for it before, when that row had a [tries] that is
    not NULL; with [tries = 0] when the row had NULL there, and when there
    was no row. *)
Theorem retry_upsert_tries w i Wallet Bal :
  let rows := map_to_list (tokens (working (conn w))) in
  let seen := statuses_seen fst (wallets_table_body AIRDROP_TABLE false)
                (0%nat, 0%nat) rows w in
  let run := process_Wallets_table AIRDROP_TABLE false w in
  let db := working (conn w) in
  let db' := working (conn run.2) in
  rows !! i = Some (Wallet, Bal) ->
  seen !! i = Some Indeterminate ->
  (∀ r n, retry_queue db !! Wallet = Some r -> rr_tries r = Some n ->
     retry_queue db' !! Wallet = Some (mkRetryRow Bal (Some n))) ∧
  (∀ r, retry_queue db !! Wallet = Some r -> rr_tries r = None ->
     retry_queue db' !! Wallet = Some (mkRetryRow Bal (Some 0))) ∧
  (retry_queue db !! Wallet = None ->
     retry_queue db' !! Wallet = Some (mkRetryRow Bal (Some 0))).
Proof.
  cbn zeta. intros Hrow Hseen.
  rewrite process_Wallets_table_run. cbn [fst snd conn working select_wallet_balance].
  pose proof (NoDup_fst_map_to_list (tokens (working (conn w)))) as Hnd.
  destruct (first_pass_loop _ (0%nat, 0%nat) w Hnd) as (_ & _ & _ & _ & Hpol).
  destruct (Hpol i Wallet Bal None Hrow Hseen) as (_ & _ & ->).
  unfold select_tries. repeat split.
  - intros r n -> Hn. cbn. by rewrite Hn.
  - intros r -> Hn. cbn. by rewrite Hn.
  - by intros ->.
Qed.

(** *** What is committed, and when *)

(** C8 (amended). Neither pass commits before its loop has ended: after
    any number of turns what is committed is what was committed when the
    pass started. Each pass commits once, after its loop, and then all its
    moves are committed together. The turn of a wallet leaves the tables
    as they were, or does its insert and its delete one after the other. *)
Theorem pass_commits_at_end w k counts moved Wallet Bal r :
  committed (conn (process_Wallets_table_killed AIRDROP_TABLE false k w).2)
    = committed (conn w) ∧
  committed (conn (process_retry_queue_killed k w).2) = committed (conn w) ∧
  (let run := process_Wallets_table AIRDROP_TABLE false w in
   committed (conn run.2) = working (conn run.2)) ∧
  (let run := process_retry_queue w in
   committed (conn run.2) = working (conn run.2)) ∧
  (let db := working (conn w) in
   let step := wallets_table_body AIRDROP_TABLE false counts (Wallet, Bal) w in
   committed (conn step.2) = committed (conn w) ∧
   (working (conn step.2) = db ∨
    working (conn step.2) =
      delete_from AIRDROP_TABLE Wallet (insert_or_replace_missing Wallet Bal db) ∨
    working (conn step.2) =
      delete_from AIRDROP_TABLE Wallet (insert_or_replace_retry Wallet Bal db))) ∧
  (let db := working (conn w) in
   let step := retry_queue_body moved (Wallet, r) w in
   committed (conn step.2) = committed (conn w) ∧
   (working (conn step.2) = delete_from RETRY_QUEUE_TABLE Wallet db ∨
    working (conn step.2) =
      delete_from RETRY_QUEUE_TABLE Wallet
        (insert_or_replace_missing Wallet (rr_balance r) db))).
Proof.
  split; [|split; [|split; [|split; [|split]]]].
  - unfold process_Wallets_table_killed. rewrite run_bind. cbn [query fst snd].
    cbn [select_wallet_balance].
    assert (NoDup (take k (map_to_list (tokens (working (conn w))))).*1) as Hnd.
    { apply NoDup_take_keys, NoDup_fst_map_to_list. }
    by destruct (first_pass_loop _ (0%nat, 0%nat) w Hnd) as (Hcom & _).
  - unfold process_retry_queue_killed. rewrite run_bind. cbn [query fst snd].
    unfold select_retry_queue.
    assert (NoDup (take k (map_to_list (retry_queue (working (conn w))))).*1) as Hnd.
    { apply NoDup_take_keys, NoDup_fst_map_to_list. }
    by destruct (second_pass_loop _ 0%nat w Hnd) as (Hcom & _).
  - cbn zeta. by rewrite process_Wallets_table_run.
  - cbn zeta. by rewrite process_retry_queue_run.
  - cbn zeta.
    destruct (wallets_table_body_run AIRDROP_TABLE false counts Wallet Bal w)
      as (Hcom & Hwork & _).
    split; [done|]. rewrite Hwork.
    destruct (has_trustline Wallet w).1 as [[]|]; auto.
  - cbn zeta. destruct (retry_queue_body_run moved Wallet r w) as (Hcom & Hwork & _).
    split; [done|]. rewrite Hwork.
    destruct (has_trustline Wallet w).1 as [[]|]; auto.
Qed.

(** *** The scenario of the specification *)

Lemma has_trustline_first_success wallet w result :
  (request "https://xrplcluster.com/" wallet (net w)).1 = Replied true result ->
  (has_trustline wallet w).1 = Some (scan_lines (result_lines result)).
Proof.
  intros Hreq. rewrite has_trustline_run. cbn [fst].
  unfold fetch_trustlines_with_failover, NODES.
  rewrite node_loop_cons, !run_bind. cbn [log emit fst snd].
  change (seq 1 max_retries_per_node) with [1%nat; 2%nat].
  cbn [attempt_loop]. rewrite run_bind. unfold client_request at 1 2.
  cbn [net]. destruct (request "https://xrplcluster.com/" wallet (net w)) as [resp s'].
  cbn [fst] in Hreq. subst resp. done.
Qed.

Lemma scenario_rows :
  map_to_list (tokens scenario_db) = [("W1", 100 # 1); ("W2", 200 # 1)].
Proof. vm_compute. reflexivity. Qed.

(** C7 (amended). With W1 at 100 and W2 at 200 in the source table and
    the other tables empty, and a first node that answers at once, with the
    trustline for W1 and without it for W2, the first pass leaves W1 at 100
    in the source table, W2 at 200 in the missing table and the retry table
    empty, and returns (1, 0). *)
Theorem scenario_first_pass w result1 result2 :
  working (conn w) = scenario_db ->
  (∀ s, (request "https://xrplcluster.com/" "W1" s).1 = Replied true result1) ->
  scan_lines (result_lines result1) = true ->
  (∀ s, (request "https://xrplcluster.com/" "W2" s).1 = Replied true result2) ->
  scan_lines (result_lines result2) = false ->
  let run := process_Wallets_table AIRDROP_TABLE false w in
  tokens (working (conn run.2)) = {[ "W1" := 100 # 1 ]} ∧
  tokens_missing_tl (working (conn run.2)) = {[ "W2" := 200 # 1 ]} ∧
  retry_queue (working (conn run.2)) = ∅ ∧
  run.1 = (1%nat, 0%nat).
Proof.
  intros Hdb Hreq1 Hscan1 Hreq2 Hscan2. cbn zeta.
  rewrite process_Wallets_table_run. cbn [fst snd conn working select_wallet_balance].
  rewrite Hdb, scenario_rows. cbn [for_rows]. rewrite !run_bind.
  destruct (wallets_table_body_run AIRDROP_TABLE false (0%nat, 0%nat) "W1" (100 # 1) w)
    as (_ & Hwork1 & Hcnt1).
  rewrite (has_trustline_first_success _ _ _ (Hreq1 _)), Hscan1 in Hwork1, Hcnt1.
  rewrite Hdb in Hwork1.
  set (step1 := wallets_table_body AIRDROP_TABLE false (0%nat, 0%nat) ("W1", 100 # 1) w) in *.
  destruct (wallets_table_body_run AIRDROP_TABLE false step1.1 "W2" (200 # 1) step1.2)
    as (_ & Hwork2 & Hcnt2).
  rewrite (has_trustline_first_success _ _ _ (Hreq2 _)), Hscan2 in Hwork2, Hcnt2.
  rewrite run_ret. cbn [fst snd]. rewrite Hwork2, Hcnt2, Hwork1, Hcnt1.
  repeat split; vm_compute; reflexivity.
Qed.

End Driver.

(** ** Concrete runs *)

Example plan_of_NODES :
  plan_of NODES =
    [ "https://xrplcluster.com/"; "https://xrplcluster.com/";
      "https://s2.ripple.com:51234/"; "https://s2.ripple.com:51234/";
      "https://xrpl.link/"; "https://xrpl.link/" ].
Proof. reflexivity. Qed.

(** The comparison with the issuer and the currency code is that of
    strings: another case is another string. *)
Example line_matches_exact :
  line_matches matching_line = true ∧
  line_matches {[ "account" := JStr "rj9uu9jkxncsnqm2clkuhpxnn8p4xmhdvq";
                  "currency" := JStr CURRENCY_HEX ]} = false ∧
  line_matches {[ "account" := JStr ISSUER_OF_TOKEN ]} = false ∧
  scan_lines [other_line; matching_line] = true ∧
  scan_lines [matching_line; other_line] = true ∧
  scan_lines [other_line] = false ∧
  scan_lines [] = false.
Proof. repeat split; vm_compute; reflexivity. Qed.

(** The second scenario of the specification: W3 at 50 in the source
    table and no node answering. The first pass moves W3 to the retry
    table with [tries = 0] and returns (0, 1); [main] then runs the second
    pass, which moves W3 to the missing table. *)
Example scenario_indeterminate :
  let w0 := fresh_world one_wallet_db in
  let p1 := @process_Wallets_table unit dead_ledger AIRDROP_TABLE false w0 in
  let final := (@main unit dead_ledger w0).2 in
  p1.1 = (0%nat, 1%nat) ∧
  map_to_list (tokens (working (conn p1.2))) = [] ∧
  map_to_list (retry_queue (working (conn p1.2)))
    = [("W3", mkRetryRow (50 # 1) (Some 0))] ∧
  map_to_list (tokens (committed (conn final))) = [] ∧
  map_to_list (retry_queue (committed (conn final))) = [] ∧
  map_to_list (tokens_missing_tl (committed (conn final))) = [("W3", 50 # 1)] ∧
  fetches_of "W3" (trace final) = 2%nat.
Proof. cbn zeta. repeat split; vm_compute; reflexivity. Qed.

(** C6. With no node answering, the fetch sleeps after every failed
    attempt, the last attempt on a node too: 4 seconds pass between the
    second request to a node and the first request to the next node, and
    again after the last node before the fetch returns [None]. *)
Theorem backoff_sleep_after_last_attempt :
  let run := @fetch_trustlines_with_failover unit dead_ledger "W3"
               (fresh_world empty_db) in
  run.1 = None ∧
  sleeps_of (trace run.2) = [2 # 1; 4 # 1; 2 # 1; 4 # 1; 2 # 1; 4 # 1] ∧
  trace run.2 =
    [ Logged INFO (TryingNode "W3" "https://xrplcluster.com/");
      Requested "https://xrplcluster.com/" "W3" Raised;
      Logged ERROR (AttemptRaised "W3" 1 "https://xrplcluster.com/");
      Slept (2 # 1);
      Requested "https://xrplcluster.com/" "W3" Raised;
      Logged ERROR (AttemptRaised "W3" 2 "https://xrplcluster.com/");
      Slept (4 # 1);
      Logged WARNING (NodeFailedAll "W3" "https://xrplcluster.com/");
      Logged INFO (TryingNode "W3" "https://s2.ripple.com:51234/");
      Requested "https://s2.ripple.com:51234/" "W3" Raised;
      Logged ERROR (AttemptRaised "W3" 1 "https://s2.ripple.com:51234/");
      Slept (2 # 1);
      Requested "https://s2.ripple.com:51234/" "W3" Raised;
      Logged ERROR (AttemptRaised "W3" 2 "https://s2.ripple.com:51234/");
      Slept (4 # 1);
      Logged WARNING (NodeFailedAll "W3" "https://s2.ripple.com:51234/");
      Logged INFO (TryingNode "W3" "https://xrpl.link/");
      Requested "https://xrpl.link/" "W3" Raised;
      Logged ERROR (AttemptRaised "W3" 1 "https://xrpl.link/");
      Slept (2 # 1);
      Requested "https://xrpl.link/" "W3" Raised;
      Logged ERROR (AttemptRaised "W3" 2 "https://xrpl.link/");
      Slept (4 # 1);
      Logged WARNING (NodeFailedAll "W3" "https://xrpl.link/");
      Logged ERROR (AllNodesFailed "W3") ].
Proof. cbn zeta. repeat split; vm_compute; reflexivity. Qed.

(** C7, as the specification states it, fails: in its scenario W1 is
    answered Present and W2 Absent at the first request, and the source
    table is not empty after the first pass. *)
Lemma scenario_source_not_empty :
  let w0 := fresh_world scenario_db in
  let run := @process_Wallets_table unit scenario_ledger AIRDROP_TABLE false w0 in
  (@has_trustline unit scenario_ledger "W1" w0).1 = Present ∧
  (@has_trustline unit scenario_ledger "W2" w0).1 = Absent ∧
  ¬ (tokens (working (conn run.2)) = ∅ ∧
     tokens_missing_tl (working (conn run.2)) = {[ "W2" := 200 # 1 ]} ∧
     retry_queue (working (conn run.2)) = ∅ ∧
     run.1 = (1%nat, 0%nat)).
Proof.
  cbn zeta. split; [by vm_compute|]. split; [by vm_compute|].
  intros [Hempty _].
  assert (tokens (working (conn (@process_Wallets_table unit scenario_ledger
            AIRDROP_TABLE false (fresh_world scenario_db)).2)) !! "W1"
          = Some (100 # 1)) as Hin by (vm_compute; reflexivity).
  rewrite Hempty in Hin. by rewrite lookup_empty in Hin.
Qed.

(** The scenario with the ledger [scenario_ledger]. *)
Lemma scenario_first_pass_witness :
  working (conn (fresh_world scenario_db)) = scenario_db ∧
  (let run := @process_Wallets_table unit scenario_ledger AIRDROP_TABLE false
                (fresh_world scenario_db) in
   tokens (working (conn run.2)) = {[ "W1" := 100 # 1 ]} ∧
   tokens_missing_tl (working (conn run.2)) = {[ "W2" := 200 # 1 ]} ∧
   retry_queue (working (conn run.2)) = ∅ ∧
   run.1 = (1%nat, 0%nat)).
Proof.
  split; [reflexivity|].
  apply (@scenario_first_pass unit scenario_ledger (fresh_world scenario_db)
           {[ "lines" := [other_line; matching_line] ]}
           {[ "lines" := [other_line] ]}).
  - reflexivity.
  - intros s. reflexivity.
  - vm_compute. reflexivity.
  - intros s. reflexivity.
  - vm_compute. reflexivity.
Defined.

(** C8, as the specification states it, fails: with W3 and W2 in the
    source table and a ledger that answers at once without any line, W3
    has the first turn and is answered Absent; a pass stopped after that
    turn has committed neither the insert nor the delete of W3. *)
Lemma killed_first_pass_loses_move :
  let w0 := fresh_world two_wallets_db in
  let rows := map_to_list (tokens two_wallets_db) in
  let seen := @statuses_seen unit bare_ledger _ _ fst
                (@wallets_table_body unit bare_ledger AIRDROP_TABLE false)
                (0%nat, 0%nat) rows w0 in
  let st := (@process_Wallets_table_killed unit bare_ledger AIRDROP_TABLE false 1 w0).2 in
  ¬ (∀ i Wallet Bal, (i < 1)%nat ->
       rows !! i = Some (Wallet, Bal) -> seen !! i = Some Absent ->
       tokens_missing_tl (committed (conn st)) !! Wallet = Some Bal ∧
       tokens (committed (conn st)) !! Wallet = None).
Proof.
  cbn zeta. intros Hall.
  destruct (Hall 0%nat "W3" (50 # 1)) as [Hmissing _].
  - lia.
  - vm_compute. reflexivity.
  - vm_compute. reflexivity.
  - vm_compute in Hmissing. discriminate Hmissing.
Qed.

(** C9, as the specification states it, fails: a row of the retry table
    whose [tries] is NULL has [tries = 0] after the first pass put the
    wallet there again. *)
Lemma retry_upsert_resets_null_tries :
  let run := @process_Wallets_table unit dead_ledger AIRDROP_TABLE false
               (fresh_world null_tries_db) in
  ¬ (∀ Wallet r, retry_queue null_tries_db !! Wallet = Some r ->
       ∃ r', retry_queue (working (conn run.2)) !! Wallet = Some r' ∧
             rr_tries r' = rr_tries r).
Proof.
  cbn zeta. intros Hall.
  destruct (Hall "W3" (mkRetryRow (7 # 1) None)) as (r' & Hr' & Htries).
  - vm_compute. reflexivity.
  - vm_compute in Hr'. injection Hr' as <-. discriminate Htries.
Qed.

(** A row of the retry table with [tries = 3] keeps it when the first
    pass puts the wallet there again. *)
Lemma retry_upsert_tries_witness :
  let rows := map_to_list (tokens three_tries_db) in
  let seen := @statuses_seen unit dead_ledger _ _ fst
                (@wallets_table_body unit dead_ledger AIRDROP_TABLE false)
                (0%nat, 0%nat) rows (fresh_world three_tries_db) in
  let run := @process_Wallets_table unit dead_ledger AIRDROP_TABLE false
               (fresh_world three_tries_db) in
  rows !! 0%nat = Some ("W3", 50 # 1) ∧
  seen !! 0%nat = Some Indeterminate ∧
  retry_queue three_tries_db !! "W3" = Some (mkRetryRow (7 # 1) (Some 3)) ∧
  retry_queue (working (conn run.2)) !! "W3" = Some (mkRetryRow (50 # 1) (Some 3)).
Proof.
  cbn zeta.
  assert (map_to_list (tokens three_tries_db) !! 0%nat = Some ("W3", 50 # 1)) as Hrow
    by (vm_compute; reflexivity).
  assert (@statuses_seen unit dead_ledger _ _ fst
            (@wallets_table_body unit dead_ledger AIRDROP_TABLE false)
            (0%nat, 0%nat) (map_to_list (tokens three_tries_db))
            (fresh_world three_tries_db) !! 0%nat = Some Indeterminate) as Hseen
    by (vm_compute; reflexivity).
  assert (retry_queue three_tries_db !! "W3" = Some (mkRetryRow (7 # 1) (Some 3))) as Hold
    by (vm_compute; reflexivity).
  split; [exact Hrow|]. split; [exact Hseen|]. split; [exact Hold|].
  exact (proj1 (@retry_upsert_tries unit dead_ledger (fresh_world three_tries_db)
                  0%nat "W3" (50 # 1) Hrow Hseen)
           (mkRetryRow (7 # 1) (Some 3)) 3 Hold eq_refl).
Defined.

(** A ledger that answers with success and an empty result: W2 goes to
    the missing table. *)
Lemma successful_without_lines_witness :
  let w0 := fresh_world scenario_db in
  let step := @wallets_table_body unit bare_ledger AIRDROP_TABLE false
                (0%nat, 0%nat) ("W2", 200 # 1) w0 in
  (∅ : Result) !! "lines" = None ∧
  (@fetch_trustlines_with_failover unit bare_ledger "W2" w0).1 = Some [] ∧
  (@has_trustline unit bare_ledger "W2" w0).1 = Absent ∧
  step.1 = (1%nat, 0%nat) ∧
  tokens_missing_tl (working (conn step.2)) !! "W2" = Some (200 # 1) ∧
  tokens (working (conn step.2)) !! "W2" = None ∧
  retry_queue (working (conn step.2)) = retry_queue (working (conn w0)).
Proof.
  cbn zeta. split; [reflexivity|].
  apply (@successful_without_lines_is_absent unit bare_ledger "W2"
           (fresh_world scenario_db)
           [Logged INFO (TryingNode "W2" "https://xrplcluster.com/")]
           "https://xrplcluster.com/" ∅ (200 # 1) (0%nat, 0%nat)).
  - vm_compute. reflexivity.
  - reflexivity.
Defined.

(** C5, as the specification states it, fails: W3 starts in the source
    table and has a row in the retry table too; a ledger that answers
    Present leaves it where it is, nothing goes to the retry table, the
    second pass does not run, and after [main] W3 is in two tables. *)
Lemma residency_in_two_tables :
  let w0 := fresh_world three_tries_db in
  let db := working (conn (@main unit present_ledger w0).2) in
  is_Some (tokens (working (conn w0)) !! "W3") ∧
  (@has_trustline unit present_ledger "W3" w0).1 = Present ∧
  residency db "W3" = [AIRDROP_TABLE; RETRY_QUEUE_TABLE] ∧
  ¬ (residency db "W3" = [AIRDROP_TABLE] ∨
     residency db "W3" = [MISSING_TL_TABLE] ∨
     residency db "W3" = []).
Proof.
  cbn zeta.
  assert (residency (working (conn (@main unit present_ledger
                                      (fresh_world three_tries_db)).2)) "W3"
          = [AIRDROP_TABLE; RETRY_QUEUE_TABLE]) as Hres by (vm_compute; reflexivity).
  split; [by exists (50 # 1)|]. split; [by vm_compute|]. split; [exact Hres|].
  rewrite Hres. by intros [?|[?|?]].
Qed.

(** W1 in the scenario of the specification. *)
Lemma wallet_residency_witness :
  let w0 := fresh_world scenario_db in
  let db := working (conn (@main unit scenario_ledger w0).2) in
  residency (working (conn w0)) "W1" = [AIRDROP_TABLE] ∧
  (residency db "W1" = [AIRDROP_TABLE] ∨
   residency db "W1" = [MISSING_TL_TABLE] ∨
   residency db "W1" = []).
Proof.
  cbn zeta.
  assert (residency (working (conn (fresh_world scenario_db))) "W1" = [AIRDROP_TABLE])
    as Hstart by (vm_compute; reflexivity).
  split; [exact Hstart|].
  destruct (@wallet_residency unit scenario_ledger (fresh_world scenario_db) "W1" Hstart)
    as (_ & _ & _ & _ & [Hs|[Hm|[Hn _]]]).
  - by left.
  - by right; left.
  - by right; right.
Defined.

(** * Further properties of the script *)

(** ** Proof support *)

Lemma sleeps_of_requested node wallet resp evs :
  sleeps_of (Requested node wallet resp :: evs) = sleeps_of evs.
Proof. reflexivity. Qed.

Lemma sleeps_of_slept s evs : sleeps_of (Slept s :: evs) = s :: sleeps_of evs.
Proof. reflexivity. Qed.

Lemma sleeps_of_logged lvl line evs : sleeps_of (Logged lvl line :: evs) = sleeps_of evs.
Proof. reflexivity. Qed.

Lemma failures_of_app evs1 evs2 :
  failures_of (evs1 ++ evs2) = (failures_of evs1 + failures_of evs2)%nat.
Proof. unfold failures_of. by rewrite calls_of_app, filter_app, length_app. Qed.

Lemma failures_of_requested node wallet resp evs :
  failures_of (Requested node wallet resp :: evs) =
    ((if failed resp then 1 else 0) + failures_of evs)%nat.
Proof.
  unfold failures_of. rewrite calls_of_requested, filter_cons. cbn [snd].
  by destruct (failed resp).
Qed.

Lemma failures_of_slept s evs : failures_of (Slept s :: evs) = failures_of evs.
Proof. reflexivity. Qed.

Lemma failures_of_logged lvl line evs :
  failures_of (Logged lvl line :: evs) = failures_of evs.
Proof. reflexivity. Qed.

Lemma failures_of_all_failed evs :
  Forall (fun c => failed c.2 = true) (calls_of evs) ->
  failures_of evs = length (calls_of evs).
Proof.
  unfold failures_of. induction 1 as [|c cs Hc _ IH]; [done|].
  rewrite filter_cons, decide_True by done. cbn [length]. by rewrite IH.
Qed.

Lemma events_since_app {Net} (w w' : World Net) evs :
  trace w' = trace w ++ evs -> events_since w w' = evs.
Proof. intros Htr. unfold events_since. by rewrite Htr, drop_app_length. Qed.

Arguments failures_of : simpl never.
Arguments events_since : simpl never.
Arguments backoff : simpl never.

Section More.
Context {Net : Type} `{L : Ledger Net}.
Implicit Types (w : World Net) (db : DB).

(** The sleeps of one retry loop: one after each failed request. *)
Lemma attempt_loop_sleeps wallet node attempts w r w' :
  attempt_loop wallet node attempts w = (r, w') ->
  ∃ evs, trace w' = trace w ++ evs ∧
    sleeps_of evs = backoff <$> take (failures_of evs) attempts ∧
    match r with
    | None => failures_of evs = length attempts
    | Some _ => (failures_of evs < length attempts)%nat
    end.
Proof.
  revert w. induction attempts as [|attempt rest IH]; intros w Hrun.
  - injection Hrun as <- <-. exists []. by rewrite app_nil_r.
  - cbn [attempt_loop] in Hrun. run_in Hrun.
    destruct (request node wallet (net w)) as [resp n'] eqn:Hreq.
    destruct resp as [|[] result]; cbn in Hrun.
    + apply IH in Hrun as (evs & Htr & Hs & Hr). cbn in Htr.
      eexists (_ :: _ :: _ :: evs). split.
      { rewrite Htr, <- !app_assoc. reflexivity. }
      rewrite failures_of_requested, failures_of_logged, failures_of_slept.
      rewrite sleeps_of_requested, sleeps_of_logged, sleeps_of_slept, Hs.
      cbn [failed Nat.add take fmap list_fmap]. split; [done|].
      destruct r; cbn [length]; lia.
    + injection Hrun as <- <-. eexists [_]. split; [done|].
      rewrite failures_of_requested. change (failures_of []) with 0%nat.
      cbn. split; [done|lia].
    + apply IH in Hrun as (evs & Htr & Hs & Hr). cbn in Htr.
      eexists (_ :: _ :: _ :: evs). split.
      { rewrite Htr, <- !app_assoc. reflexivity. }
      rewrite failures_of_requested, failures_of_logged, failures_of_slept.
      rewrite sleeps_of_requested, sleeps_of_logged, sleeps_of_slept, Hs.
      cbn [failed Nat.add take fmap list_fmap]. split; [done|].
      destruct r; cbn [length]; lia.
Qed.

Lemma backoff_plan_cons node nodes :
  backoff_plan (node :: nodes) =
    (backoff <$> seq 1 max_retries_per_node) ++ backoff_plan nodes.
Proof. reflexivity. Qed.

(** The sleeps of the loop over the nodes. *)
Lemma node_loop_sleeps wallet nodes w r w' :
  node_loop wallet nodes w = (r, w') ->
  ∃ evs, trace w' = trace w ++ evs ∧
    sleeps_of evs = take (failures_of evs) (backoff_plan nodes).
Proof.
  revert w. induction nodes as [|node_url rest IH]; intros w Hrun.
  - cbn [node_loop] in Hrun. run_in Hrun. injection Hrun as <- <-.
    eexists [_]. split; [done|].
    change (backoff_plan []) with (@nil Q). by rewrite take_nil.
  - rewrite node_loop_cons, run_bind, run_bind in Hrun.
    cbn [log emit fst snd] in Hrun.
    set (w1 := mkWorld _ _ _) in Hrun.
    destruct (attempt_loop wallet node_url (seq 1 max_retries_per_node) w1)
      as [r1 w2] eqn:Hloop.
    apply attempt_loop_sleeps in Hloop as (evs1 & Htr1 & Hs1 & Hf1).
    rewrite length_seq in Hf1.
    cbn [fst snd] in Hrun. destruct r1 as [lines|].
    + injection Hrun as <- <-.
      exists (Logged INFO (TryingNode wallet node_url) :: evs1). split.
      { rewrite Htr1. subst w1. cbn [trace]. by rewrite <- app_assoc. }
      rewrite sleeps_of_logged, failures_of_logged, Hs1, backoff_plan_cons.
      rewrite take_app_le by (rewrite length_fmap, length_seq; lia).
      by rewrite fmap_take.
    + rewrite run_bind in Hrun. cbn [log emit fst snd] in Hrun.
      apply IH in Hrun as (evs & Htr & Hs). cbn [trace] in Htr.
      exists (Logged INFO (TryingNode wallet node_url) :: evs1
              ++ Logged WARNING (NodeFailedAll wallet node_url) :: evs). split.
      { rewrite Htr, Htr1. subst w1. cbn [trace]. by rewrite <- !app_assoc. }
      rewrite sleeps_of_logged, failures_of_logged, sleeps_of_app, failures_of_app.
      rewrite sleeps_of_logged, failures_of_logged, Hs1, Hs, Hf1, backoff_plan_cons.
      rewrite take_ge by (rewrite length_seq; lia).
      rewrite take_app_add'; [done|]. by rewrite length_fmap, length_seq.
Qed.

(** X1. In every fetch each failed request, the last one on a node too,
    is followed by one sleep of [base_backoff_seconds * attempt] seconds,
    and a successful request by none: the sleeps are the first entries of
    2, 4, 2, 4, 2, 4, as many as requests failed. A fetch makes six
    requests at most, and all its requests but a final successful one
    failed. *)
Theorem fetch_backoff_schedule wallet w :
  let run := fetch_trustlines_with_failover wallet w in
  let evs := events_since w run.2 in
  trace run.2 = trace w ++ evs ∧
  sleeps_of evs = take (failures_of evs) (backoff_plan NODES) ∧
  backoff_plan NODES = [2 # 1; 4 # 1; 2 # 1; 4 # 1; 2 # 1; 4 # 1] ∧
  (length (calls_of evs) <= 6)%nat ∧
  length (calls_of evs) =
    (failures_of evs + if run.1 is Some _ then 1 else 0)%nat.
Proof.
  cbn zeta. unfold fetch_trustlines_with_failover.
  destruct (node_loop wallet NODES w) as [r w'] eqn:Hrun. cbn [fst snd].
  pose proof (node_loop_sleeps _ _ _ _ _ Hrun) as (evs & Htr & Hs).
  pose proof (node_loop_run _ _ _ _ _ Hrun) as (_ & evs' & Htr' & Hspec).
  assert (evs' = evs) as -> by (rewrite Htr in Htr'; by apply app_inv_head in Htr').
  rewrite (events_since_app _ _ _ Htr).
  split; [done|]. split; [done|]. split; [reflexivity|].
  destruct r as [lines|].
  - destruct Hspec as (evs0 & node & result & -> & _ & Hf & Hpre).
    apply prefix_length in Hpre. rewrite length_app, length_fmap in Hpre.
    cbn in Hpre. rewrite calls_of_app, length_app, failures_of_app.
    rewrite (failures_of_all_failed _ Hf), failures_of_requested.
    rewrite calls_of_requested, calls_of_nil. change (failures_of []) with 0%nat.
    cbn. split; lia.
  - destruct Hspec as [Hplan Hf]. rewrite (failures_of_all_failed _ Hf).
    split; [|lia]. rewrite <- (length_fmap fst), Hplan. done.
Qed.

(** *** Single steps of the fetch *)

Lemma attempt_loop_failed_step wallet node attempt rest w resp s :
  request node wallet (net w) = (resp, s) -> failed resp = true ->
  attempt_loop wallet node (attempt :: rest) w =
    attempt_loop wallet node rest
      (mkWorld (elapse (backoff attempt) s) (conn w)
         (trace w ++ [Requested node wallet resp;
                      attempt_log wallet attempt node resp;
                      Slept (backoff attempt)])).
Proof.
  intros Hreq Hfail. cbn [attempt_loop]. rewrite run_bind.
  unfold client_request at 1 2. rewrite Hreq. cbn [fst snd].
  destruct resp as [|[] result]; [|done|];
    rewrite !run_bind; cbn [log emit sleep fst snd net conn trace attempt_log];
    by rewrite <- !app_assoc.
Qed.

Lemma attempt_loop_success_step wallet node attempt rest w result s :
  request node wallet (net w) = (Replied true result, s) ->
  attempt_loop wallet node (attempt :: rest) w =
    (Some (result_lines result),
     mkWorld s (conn w) (trace w ++ [Requested node wallet (Replied true result)])).
Proof.
  intros Hreq. cbn [attempt_loop]. rewrite run_bind.
  unfold client_request at 1 2. by rewrite Hreq.
Qed.

(** X2. When the first node answers the first request with success, the
    fetch returns the lines of that answer after one log line and that one
    request: no other request, no sleep, and the environment is as that
    request left it. *)
Theorem first_node_success wallet w result s :
  request "https://xrplcluster.com/" wallet (net w) = (Replied true result, s) ->
  fetch_trustlines_with_failover wallet w =
    (Some (result_lines result),
     mkWorld s (conn w)
       (trace w ++
          [Logged INFO (TryingNode wallet "https://xrplcluster.com/");
           Requested "https://xrplcluster.com/" wallet (Replied true result)])).
Proof.
  intros Hreq. unfold fetch_trustlines_with_failover, NODES.
  rewrite node_loop_cons, !run_bind. cbn [log emit fst snd].
  change (seq 1 max_retries_per_node) with [1%nat; 2%nat].
  erewrite attempt_loop_success_step by exact Hreq.
  cbn [fst snd net conn trace]. by rewrite <- app_assoc.
Qed.

(** X3. When both requests to the first node fail and the second node
    answers its first request with success, the fetch returns the lines of
    that answer; it has made these three requests and no other, so the
    third node is not contacted; it has slept 2 and then 4 seconds, and
    the database is as it was. *)
Theorem failover_to_second_node wallet w r1 s1 r2 s2 result s3 :
  request "https://xrplcluster.com/" wallet (net w) = (r1, s1) ->
  failed r1 = true ->
  request "https://xrplcluster.com/" wallet (elapse (2 # 1) s1) = (r2, s2) ->
  failed r2 = true ->
  request "https://s2.ripple.com:51234/" wallet (elapse (4 # 1) s2)
    = (Replied true result, s3) ->
  let run := fetch_trustlines_with_failover wallet w in
  run.1 = Some (result_lines result) ∧
  net run.2 = s3 ∧
  conn run.2 = conn w ∧
  calls_of (events_since w run.2) =
    [ ("https://xrplcluster.com/", r1); ("https://xrplcluster.com/", r2);
      ("https://s2.ripple.com:51234/", Replied true result) ] ∧
  sleeps_of (events_since w run.2) = [2 # 1; 4 # 1].
Proof.
  intros Hreq1 Hfail1 Hreq2 Hfail2 Hreq3. cbn zeta.
  unfold fetch_trustlines_with_failover, NODES.
  rewrite node_loop_cons, !run_bind. cbn [log emit fst snd].
  change (seq 1 max_retries_per_node) with [1%nat; 2%nat].
  erewrite attempt_loop_failed_step; [|exact Hreq1|exact Hfail1].
  erewrite attempt_loop_failed_step; [|exact Hreq2|exact Hfail2].
  cbn [attempt_loop mret M_ret fst snd]. rewrite run_bind. cbn [log emit fst snd].
  rewrite node_loop_cons, !run_bind. cbn [log emit fst snd].
  change (seq 1 max_retries_per_node) with [1%nat; 2%nat].
  erewrite attempt_loop_success_step by exact Hreq3.
  cbn [fst snd net conn trace mret M_ret].
  split; [done|]. split; [done|]. split; [done|].
  erewrite events_since_app; [|cbn [trace]; rewrite <- !app_assoc; reflexivity].
  split.
  - by destruct r1 as [|[] ?], r2 as [|[] ?].
  - by destruct r1 as [|[] ?], r2 as [|[] ?].
Qed.

(** X4. Classifying a wallet never reads or writes the database: the
    connection, with what is committed and what is not, is after
    [has_trustline] and after [fetch_trustlines_with_failover] as it was
    before; the trace is only added to. *)
Theorem classifier_leaves_database wallet w :
  conn (has_trustline wallet w).2 = conn w ∧
  conn (fetch_trustlines_with_failover wallet w).2 = conn w ∧
  trace w `prefix_of` trace (has_trustline wallet w).2.
Proof.
  rewrite has_trustline_run. cbn [snd]. unfold fetch_trustlines_with_failover.
  destruct (node_loop wallet NODES w) as [r w'] eqn:Hrun. cbn [snd].
  apply node_loop_run in Hrun as (Hc & evs & Htr & _).
  split; [done|]. split; [done|]. rewrite Htr. by apply prefix_app_r.
Qed.

(** *** The passes, wallet by wallet *)

(** What the first pass does at any wallet: the policy of its turn when it
    is in the source table, nothing otherwise. *)
Lemma first_pass_cases w wallet :
  let rows := map_to_list (tokens (working (conn w))) in
  let seen := statuses_seen fst (wallets_table_body AIRDROP_TABLE false)
                (0%nat, 0%nat) rows w in
  let run := process_Wallets_table AIRDROP_TABLE false w in
  match tokens (working (conn w)) !! wallet with
  | Some Bal =>
      ∃ i st, rows !! i = Some (wallet, Bal) ∧ seen !! i = Some st ∧
        first_pass_policy wallet Bal st (working (conn w)) (working (conn run.2))
  | None => same_at wallet (working (conn w)) (working (conn run.2))
  end.
Proof.
  cbn zeta. rewrite process_Wallets_table_run.
  cbn [fst snd conn working select_wallet_balance].
  pose proof (NoDup_fst_map_to_list (tokens (working (conn w)))) as Hnd.
  destruct (first_pass_loop _ (0%nat, 0%nat) w Hnd) as (_ & Hlen & _ & Hframe & Hpol).
  destruct (tokens (working (conn w)) !! wallet) as [Bal|] eqn:Hin.
  - apply elem_of_map_to_list, list_elem_of_lookup_1 in Hin as [i Hi].
    destruct (lookup_lt_is_Some_2
                (statuses_seen fst (wallets_table_body AIRDROP_TABLE false)
                   (0%nat, 0%nat) (map_to_list (tokens (working (conn w)))) w) i)
      as [st Hst].
    { rewrite Hlen. by eapply lookup_lt_Some. }
    exists i, st. split; [done|]. split; [done|]. by eapply Hpol.
  - apply Hframe. intros Hel. apply row_of_key in Hel as (i & Bal & Hi).
    apply list_elem_of_lookup_2, elem_of_map_to_list in Hi. congruence.
Qed.

Lemma second_pass_cases w wallet :
  let rows := map_to_list (retry_queue (working (conn w))) in
  let seen := statuses_seen fst retry_queue_body 0%nat rows w in
  let run := process_retry_queue w in
  match retry_queue (working (conn w)) !! wallet with
  | Some r =>
      ∃ i st, rows !! i = Some (wallet, r) ∧ seen !! i = Some st ∧
        second_pass_policy wallet r st (working (conn w)) (working (conn run.2))
  | None => same_at wallet (working (conn w)) (working (conn run.2))
  end.
Proof.
  cbn zeta. rewrite process_retry_queue_run.
  cbn [fst snd conn working]. unfold select_retry_queue.
  pose proof (NoDup_fst_map_to_list (retry_queue (working (conn w)))) as Hnd.
  destruct (second_pass_loop _ 0%nat w Hnd) as (_ & Hlen & _ & Hframe & Hpol).
  destruct (retry_queue (working (conn w)) !! wallet) as [r|] eqn:Hin.
  - apply elem_of_map_to_list, list_elem_of_lookup_1 in Hin as [i Hi].
    destruct (lookup_lt_is_Some_2
                (statuses_seen fst retry_queue_body 0%nat
                   (map_to_list (retry_queue (working (conn w)))) w) i)
      as [st Hst].
    { rewrite Hlen. by eapply lookup_lt_Some. }
    exists i, st. split; [done|]. split; [done|]. by eapply Hpol.
  - apply Hframe. intros Hel. apply row_of_key in Hel as (i & r & Hi).
    apply list_elem_of_lookup_2, elem_of_map_to_list in Hi. congruence.
Qed.

(** The tables [main] ends with are those of its last pass. *)
Lemma main_tables w :
  let w1 := mkWorld (net w) (mkConn (working (conn w)) (working (conn w)))
              (trace w ++ [Logged INFO FirstPassStart]) in
  let p1 := process_Wallets_table AIRDROP_TABLE false w1 in
  let v1 := mkWorld (net p1.2) (conn p1.2)
              ((trace p1.2 ++ [Logged INFO (FirstPassDone p1.1.1 p1.1.2)])
                 ++ [Logged INFO SecondPassStart]) in
  (main_first_pass w).1 = p1.1 ∧
  conn (main w).2 =
    if (0 <? p1.1.2)%nat then conn (process_retry_queue v1).2 else conn p1.2.
Proof.
  cbn zeta. rewrite main_run, main_first_pass_run. cbn [fst snd].
  split; [done|]. rewrite run_bind. cbn [close log emit fst snd conn].
  destruct (0 <? _)%nat.
  - rewrite main_second_pass_run. cbn [fst snd conn net trace].
    by rewrite process_retry_queue_run.
  - cbn [conn]. by rewrite process_Wallets_table_run.
Qed.

(** X5. A pass changes nothing for a wallet that has no row in the table
    it reads: the first pass leaves the three tables as they were at every
    wallet that is not in the source table, the second pass at every
    wallet that is not in the retry table. *)
Theorem passes_leave_other_wallets w other :
  (tokens (working (conn w)) !! other = None ->
   same_at other (working (conn w))
     (working (conn (process_Wallets_table AIRDROP_TABLE false w).2))) ∧
  (retry_queue (working (conn w)) !! other = None ->
   same_at other (working (conn w)) (working (conn (process_retry_queue w).2))).
Proof.
  split; intros Hout.
  - pose proof (first_pass_cases w other) as Hcase. cbn zeta in Hcase.
    by rewrite Hout in Hcase.
  - pose proof (second_pass_cases w other) as Hcase. cbn zeta in Hcase.
    by rewrite Hout in Hcase.
Qed.

Lemma first_pass_missing_grows w wallet :
  is_Some (tokens_missing_tl (working (conn w)) !! wallet) ->
  is_Some (tokens_missing_tl
             (working (conn (process_Wallets_table AIRDROP_TABLE false w).2)) !! wallet).
Proof.
  intros Hin. pose proof (first_pass_cases w wallet) as Hcase. cbn zeta in Hcase.
  destruct (tokens (working (conn w)) !! wallet) as [Bal|].
  - destruct Hcase as (i & st & _ & _ & Hpol).
    destruct st as [[]|]; cbn in Hpol.
    + destruct Hpol as (_ & <- & _). done.
    + destruct Hpol as (_ & -> & _). done.
    + destruct Hpol as (_ & -> & _). done.
  - destruct Hcase as (_ & <- & _). done.
Qed.

Lemma second_pass_missing_grows w wallet :
  is_Some (tokens_missing_tl (working (conn w)) !! wallet) ->
  is_Some (tokens_missing_tl (working (conn (process_retry_queue w).2)) !! wallet).
Proof.
  intros Hin. pose proof (second_pass_cases w wallet) as Hcase. cbn zeta in Hcase.
  destruct (retry_queue (working (conn w)) !! wallet) as [r|].
  - destruct Hcase as (i & st & _ & _ & _ & _ & Hm).
    destruct st as [[]|]; rewrite Hm; done.
  - destruct Hcase as (_ & <- & _). done.
Qed.

(** X6. No wallet ever leaves the missing table: a wallet that has a row
    there before the first pass, before the second pass or before [main]
    has one after it. *)
Theorem missing_table_only_grows w wallet :
  is_Some (tokens_missing_tl (working (conn w)) !! wallet) ->
  is_Some (tokens_missing_tl
             (working (conn (process_Wallets_table AIRDROP_TABLE false w).2)) !! wallet) ∧
  is_Some (tokens_missing_tl (working (conn (process_retry_queue w).2)) !! wallet) ∧
  is_Some (tokens_missing_tl (working (conn (main w).2)) !! wallet).
Proof.
  intros Hin. split; [by apply first_pass_missing_grows|].
  split; [by apply second_pass_missing_grows|].
  destruct (main_tables w) as [_ ->].
  set (w1 := mkWorld _ _ (trace w ++ [Logged INFO FirstPassStart])).
  assert (is_Some (tokens_missing_tl
            (working (conn (process_Wallets_table AIRDROP_TABLE false w1).2)) !! wallet))
    as Hin1 by (by apply first_pass_missing_grows).
  destruct (0 <? _)%nat; [|done].
  by apply second_pass_missing_grows.
Qed.

Lemma first_pass_counts w :
  let rows := map_to_list (tokens (working (conn w))) in
  let seen := statuses_seen fst (wallets_table_body AIRDROP_TABLE false)
                (0%nat, 0%nat) rows w in
  (process_Wallets_table AIRDROP_TABLE false w).1
    = (count_status Absent seen, count_status Indeterminate seen).
Proof.
  cbn zeta. rewrite process_Wallets_table_run. cbn [fst select_wallet_balance].
  pose proof (NoDup_fst_map_to_list (tokens (working (conn w)))) as Hnd.
  by destruct (first_pass_loop _ (0%nat, 0%nat) w Hnd) as (_ & _ & -> & _).
Qed.

Lemma first_pass_source_shrinks w :
  tokens (working (conn (process_Wallets_table AIRDROP_TABLE false w).2))
    ⊆ tokens (working (conn w)).
Proof.
  apply map_subseteq_spec. intros wallet Bal Hin.
  pose proof (first_pass_cases w wallet) as Hcase. cbn zeta in Hcase.
  destruct (tokens (working (conn w)) !! wallet) as [Bal0|] eqn:Hold.
  - destruct Hcase as (i & st & _ & _ & Hpol).
    destruct st as [[]|]; cbn in Hpol.
    + destruct Hpol as (Ht & _). congruence.
    + destruct Hpol as (Ht & _). congruence.
    + destruct Hpol as (Ht & _). congruence.
  - destruct Hcase as (Ht & _). congruence.
Qed.

Lemma second_pass_keeps_source w :
  tokens (working (conn (process_retry_queue w).2)) = tokens (working (conn w)).
Proof.
  apply map_eq. intros wallet.
  pose proof (second_pass_cases w wallet) as Hcase. cbn zeta in Hcase.
  destruct (retry_queue (working (conn w)) !! wallet) as [r|].
  - by destruct Hcase as (i & st & _ & _ & _ & Ht & _).
  - by destruct Hcase as (<- & _).
Qed.

(** X7. The source table only loses rows: after the first pass and after
    [main] every row it holds was there before, with the same balance; the
    second pass does not change it at all. *)
Theorem source_table_only_shrinks w :
  tokens (working (conn (process_Wallets_table AIRDROP_TABLE false w).2))
    ⊆ tokens (working (conn w)) ∧
  tokens (working (conn (process_retry_queue w).2)) = tokens (working (conn w)) ∧
  tokens (working (conn (main w).2)) ⊆ tokens (working (conn w)).
Proof.
  split; [apply first_pass_source_shrinks|]. split; [apply second_pass_keeps_source|].
  destruct (main_tables w) as [_ ->].
  set (w1 := mkWorld _ _ (trace w ++ [Logged INFO FirstPassStart])).
  pose proof (first_pass_source_shrinks w1) as Hsub.
  destruct (0 <? _)%nat; [|done].
  by rewrite second_pass_keeps_source.
Qed.

Lemma first_pass_retry_unchanged w :
  (process_Wallets_table AIRDROP_TABLE false w).1.2 = 0%nat ->
  retry_queue (working (conn (process_Wallets_table AIRDROP_TABLE false w).2))
    = retry_queue (working (conn w)).
Proof.
  intros Hzero. rewrite first_pass_counts in Hzero. cbn [snd] in Hzero.
  apply map_eq. intros wallet.
  pose proof (first_pass_cases w wallet) as Hcase. cbn zeta in Hcase.
  destruct (tokens (working (conn w)) !! wallet) as [Bal|].
  - destruct Hcase as (i & st & _ & Hst & Hpol).
    destruct st as [[]|]; cbn in Hpol.
    + by destruct Hpol as (_ & _ & <-).
    + by destruct Hpol as (_ & _ & ->).
    + apply count_status_pos in Hst. lia.
  - by destruct Hcase as (_ & _ & <-).
Qed.

(** X9. With an empty source table [main] contacts no node and never
    sleeps; it writes its three log lines and leaves every table, the
    retry table too, as it was. *)
Theorem main_on_empty_source w :
  tokens (working (conn w)) = ∅ ->
  main w =
    (tt, mkWorld (net w) (mkConn (working (conn w)) (working (conn w)))
           (trace w ++ [Logged INFO FirstPassStart;
                        Logged INFO (FirstPassDone 0 0);
                        Logged INFO AllDone])).
Proof.
  intros Hempty. rewrite main_run, main_first_pass_run.
  rewrite process_Wallets_table_run. cbn [fst snd conn working select_wallet_balance].
  rewrite Hempty, map_to_list_empty. cbn [for_rows mret M_ret fst snd Nat.ltb Nat.leb].
  rewrite run_bind. cbn [close fst snd]. unfold log, emit.
  cbn [net conn trace committed working]. by rewrite <- !app_assoc.
Qed.

(** X10. The balance travels with the wallet: a wallet that starts in the
    source table only, with balance [Bal], is after [main] still in the
    source table with [Bal] and not in the missing table, or in the missing
    table with [Bal] and not in the source table, or in neither (answered
    Present in the second pass); in no case is it left in the retry
    table. *)
Theorem balance_carried_to_missing w wallet Bal :
  residency (working (conn w)) wallet = [AIRDROP_TABLE] ->
  tokens (working (conn w)) !! wallet = Some Bal ->
  let db := working (conn (main w).2) in
  retry_queue db !! wallet = None ∧
  (tokens db !! wallet = Some Bal ∧ tokens_missing_tl db !! wallet = None ∨
   tokens db !! wallet = None ∧ tokens_missing_tl db !! wallet = Some Bal ∨
   tokens db !! wallet = None ∧ tokens_missing_tl db !! wallet = None).
Proof.
  intros Hres Hin. cbn zeta.
  pose proof Hres as (_ & Hm0 & Hr0)%residency_source.
  destruct (main_tables w) as [_ ->].
  set (w1 := mkWorld _ _ (trace w ++ [Logged INFO FirstPassStart])).
  pose proof (first_pass_cases w1 wallet) as Hcase. cbn zeta in Hcase.
  pose proof (first_pass_counts w1) as Hcnt. cbn zeta in Hcnt.
  change (working (conn w1)) with (working (conn w)) in Hcase, Hcnt.
  rewrite Hin in Hcase. destruct Hcase as (i & st & _ & Hst & Hpol).
  set (p1 := process_Wallets_table AIRDROP_TABLE false w1) in *.
  set (v1 := mkWorld (net p1.2) (conn p1.2) _).
  pose proof (second_pass_cases v1 wallet) as Hcase2. cbn zeta in Hcase2.
  change (working (conn v1)) with (working (conn p1.2)) in Hcase2.
  destruct st as [[]|]; cbn in Hpol.
  - destruct Hpol as (Ht & Hm & Hr). rewrite Hin in Ht. rewrite Hm0 in Hm.
    rewrite Hr0 in Hr. rewrite <- Hr in Hcase2.
    destruct (0 <? p1.1.2)%nat.
    + destruct Hcase2 as (<- & <- & <-). split; [done|]. by left.
    + split; [done|]. by left.
  - destruct Hpol as (Ht & Hm & Hr). rewrite Hr0 in Hr. rewrite Hr in Hcase2.
    destruct (0 <? p1.1.2)%nat.
    + destruct Hcase2 as (<- & <- & <-). split; [done|]. by right; left.
    + split; [done|]. by right; left.
  - destruct Hpol as (Ht & Hm & Hr). rewrite Hm0 in Hm. rewrite Hr in Hcase2.
    assert ((0 <? p1.1.2)%nat = true) as ->.
    { apply Nat.ltb_lt. rewrite Hcnt. cbn [snd]. by apply count_status_pos in Hst. }
    destruct Hcase2 as (j & st2 & _ & _ & Hr2 & Ht2 & Hm2).
    rewrite Ht in Ht2. split; [done|].
    destruct st2 as [[]|]; cbn [rr_balance] in Hm2.
    + right; right. by rewrite Hm2, Hm.
    + by right; left.
    + by right; left.
Qed.

(** *** Counting classifications and requests *)

Lemma for_rows_fetches_exact {R A : Type} (body : A -> string * R -> M Net A)
    (W : string) (rows : list (string * R)) (acc : A) w :
  (∀ acc Wallet x w,
     fetches_of W (trace (body acc (Wallet, x) w).2) =
       (fetches_of W (trace w) + if decide (Wallet = W) then 1 else 0)%nat) ->
  NoDup rows.*1 ->
  fetches_of W (trace (for_rows body acc rows w).2) =
    (fetches_of W (trace w) + if decide (W ∈ rows.*1) then 1 else 0)%nat.
Proof.
  intros Hbody Hnd.
  destruct (for_rows_fetches body W rows acc w Hbody Hnd) as [_ Hout].
  destruct (decide (W ∈ rows.*1)) as [Hin|Hnot]; [|rewrite Hout by done; lia].
  clear Hout. revert acc w.
  induction rows as [|[W0 x0] rest IH]; intros acc w.
  - by apply elem_of_nil in Hin.
  - apply NoDup_cons in Hnd as [Hnotin Hnd]. cbn [for_rows]. rewrite run_bind.
    destruct (decide (W0 = W)) as [->|Hne].
    + destruct (for_rows_fetches body W rest (body acc (W, x0) w).1
                  (body acc (W, x0) w).2 Hbody Hnd) as [_ Hout].
      rewrite Hout by done. rewrite Hbody. by rewrite decide_True.
    + rewrite fmap_cons in Hin. cbn [fst] in Hin.
      apply elem_of_cons in Hin as [Heq|Hin]; [congruence|].
      rewrite (IH Hnd Hin), Hbody. rewrite decide_False by done. lia.
Qed.

Lemma key_in_map_to_list {V : Type} (m : gmap string V) wallet :
  wallet ∈ (map_to_list m).*1 ↔ is_Some (m !! wallet).
Proof.
  split.
  - intros Hin. apply row_of_key in Hin as (i & x & Hi).
    apply list_elem_of_lookup_2, elem_of_map_to_list in Hi. by exists x.
  - intros [x Hx]. apply elem_of_map_to_list, list_elem_of_lookup_1 in Hx as [i Hi].
    by eapply key_of_row.
Qed.

(** X11. A pass classifies every wallet of the table it reads exactly
    once and no other wallet: the first pass the wallets of the source
    table, the second pass those of the retry table. *)
Theorem passes_classify_each_row_once w W :
  fetches_of W (trace (process_Wallets_table AIRDROP_TABLE false w).2) =
    (fetches_of W (trace w)
     + if tokens (working (conn w)) !! W is Some _ then 1 else 0)%nat ∧
  fetches_of W (trace (process_retry_queue w).2) =
    (fetches_of W (trace w)
     + if retry_queue (working (conn w)) !! W is Some _ then 1 else 0)%nat.
Proof.
  split.
  - rewrite process_Wallets_table_run. cbn [snd trace select_wallet_balance].
    rewrite for_rows_fetches_exact;
      [|intros; apply wallets_table_body_fetches|apply NoDup_fst_map_to_list].
    f_equal. destruct (decide _) as [Hin|Hnot].
    + apply key_in_map_to_list in Hin as [x ->]. done.
    + destruct (tokens (working (conn w)) !! W) eqn:Hl; [|done].
      exfalso. apply Hnot, key_in_map_to_list. by rewrite Hl.
  - rewrite process_retry_queue_run. cbn [snd trace]. unfold select_retry_queue.
    rewrite for_rows_fetches_exact;
      [|intros; apply retry_queue_body_fetches|apply NoDup_fst_map_to_list].
    f_equal. destruct (decide _) as [Hin|Hnot].
    + apply key_in_map_to_list in Hin as [x ->]. done.
    + destruct (retry_queue (working (conn w)) !! W) eqn:Hl; [|done].
      exfalso. apply Hnot, key_in_map_to_list. by rewrite Hl.
Qed.

Lemma has_trustline_requests wallet w :
  (length (calls_of (trace w)) + 1
     <= length (calls_of (trace (has_trustline wallet w).2)))%nat ∧
  (length (calls_of (trace (has_trustline wallet w).2))
     <= length (calls_of (trace w)) + 6)%nat.
Proof.
  rewrite has_trustline_run. cbn [snd]. unfold fetch_trustlines_with_failover.
  destruct (node_loop wallet NODES w) as [r w'] eqn:Hrun. cbn [snd].
  apply node_loop_run in Hrun as (_ & evs & -> & Hspec).
  rewrite calls_of_app, length_app. destruct r as [lines|].
  - destruct Hspec as (evs0 & node & result & -> & _ & _ & Hpre).
    apply prefix_length in Hpre. rewrite length_app, length_fmap in Hpre.
    cbn in Hpre. rewrite calls_of_app, length_app, calls_of_requested, calls_of_nil.
    cbn. lia.
  - destruct Hspec as [Hplan _].
    rewrite <- (length_fmap fst (calls_of evs)), Hplan. cbn. lia.
Qed.

Lemma wallets_table_body_requests table_name second_pass counts Wallet Bal w :
  calls_of (trace (wallets_table_body table_name second_pass counts (Wallet, Bal) w).2)
    = calls_of (trace (has_trustline Wallet w).2).
Proof.
  unfold wallets_table_body. destruct counts as [mm mr].
  rewrite !run_bind. cbn [sleep fst snd].
  destruct (has_trustline Wallet w) as [st w1]. cbn [fst snd].
  destruct st as [[]|]; [| |destruct second_pass];
    rewrite ?run_bind; cbn; by rewrite !calls_of_app, ?app_nil_r.
Qed.

Lemma retry_queue_body_requests moved Wallet r w :
  calls_of (trace (retry_queue_body moved (Wallet, r) w).2)
    = calls_of (trace (has_trustline Wallet w).2).
Proof.
  unfold retry_queue_body. rewrite !run_bind. cbn [sleep fst snd].
  destruct (has_trustline Wallet w) as [st w1]. cbn [fst snd].
  destruct st as [[]|]; rewrite ?run_bind; cbn; by rewrite !calls_of_app, ?app_nil_r.
Qed.

Lemma for_rows_requests {R A : Type} (body : A -> string * R -> M Net A)
    (rows : list (string * R)) (acc : A) w :
  (∀ acc Wallet x w,
     calls_of (trace (body acc (Wallet, x) w).2)
       = calls_of (trace (has_trustline Wallet w).2)) ->
  (length (calls_of (trace w)) + length rows
     <= length (calls_of (trace (for_rows body acc rows w).2)))%nat ∧
  (length (calls_of (trace (for_rows body acc rows w).2))
     <= length (calls_of (trace w)) + 6 * length rows)%nat.
Proof.
  intros Hbody. revert acc w.
  induction rows as [|[W0 x0] rest IH]; intros acc w.
  - cbn. lia.
  - cbn [for_rows]. rewrite run_bind.
    destruct (IH (body acc (W0, x0) w).1 (body acc (W0, x0) w).2) as [Hlo Hhi].
    rewrite Hbody in Hlo, Hhi.
    destruct (has_trustline_requests W0 w) as [Hlo1 Hhi1]. cbn [length]. lia.
Qed.

(** X12. A pass makes at least one request and at most six for every row
    of the table it reads: between one and six times the size of the
    source table in the first pass, of the retry table in the second. *)
Theorem pass_request_bounds w :
  let before := length (calls_of (trace w)) in
  let after1 := length (calls_of (trace (process_Wallets_table AIRDROP_TABLE false w).2)) in
  let after2 := length (calls_of (trace (process_retry_queue w).2)) in
  (before + size (tokens (working (conn w))) <= after1)%nat ∧
  (after1 <= before + 6 * size (tokens (working (conn w))))%nat ∧
  (before + size (retry_queue (working (conn w))) <= after2)%nat ∧
  (after2 <= before + 6 * size (retry_queue (working (conn w))))%nat.
Proof.
  cbn zeta. rewrite process_Wallets_table_run, process_retry_queue_run.
  cbn [snd trace select_wallet_balance]. unfold select_retry_queue.
  rewrite <- !length_map_to_list.
  destruct (for_rows_requests (wallets_table_body AIRDROP_TABLE false)
              (map_to_list (tokens (working (conn w)))) (0%nat, 0%nat) w) as [H1 H2].
  { intros. apply wallets_table_body_requests. }
  destruct (for_rows_requests retry_queue_body
              (map_to_list (retry_queue (working (conn w)))) 0%nat w) as [H3 H4].
  { intros. apply retry_queue_body_requests. }
  done.
Qed.

(** *** The first pass in numbers *)

Lemma first_pass_loop_size rows counts w :
  NoDup rows.*1 ->
  (∀ Wallet, Wallet ∈ rows.*1 -> is_Some (tokens (working (conn w)) !! Wallet)) ->
  let run := for_rows (wallets_table_body AIRDROP_TABLE false) counts rows w in
  (size (tokens (working (conn run.2))) + run.1.1 + run.1.2
   = size (tokens (working (conn w))) + counts.1 + counts.2)%nat.
Proof.
  cbn zeta. revert counts w.
  induction rows as [|[W0 B0] rest IH]; intros counts w Hnd Hin.
  - done.
  - apply NoDup_cons in Hnd as [Hnotin Hnd]. cbn [for_rows]. rewrite run_bind.
    pose proof (wallets_table_body_run AIRDROP_TABLE false counts W0 B0 w)
      as (_ & Hwork & Hcnt).
    set (step := wallets_table_body AIRDROP_TABLE false counts (W0, B0) w) in *.
    set (st0 := (has_trustline W0 w).1) in *. clearbody step st0.
    destruct (Hin W0) as [x0 Hx0]; [rewrite fmap_cons; left|].
    assert (∀ Wallet, Wallet ∈ rest.*1 ->
              is_Some (tokens (working (conn step.2)) !! Wallet)) as Hin'.
    { intros Wallet Hel. rewrite Hwork.
      assert (W0 ≠ Wallet) as Hne by (intros ->; done).
      destruct (Hin Wallet) as [x Hx]; [rewrite fmap_cons; by right|].
      destruct st0 as [[]|]; cbn; rewrite ?lookup_delete_ne by done; by exists x. }
    rewrite (IH step.1 step.2 Hnd Hin'), Hwork, Hcnt.
    assert (0 < size (tokens (working (conn w))))%nat as Hpos.
    { destruct (decide (size (tokens (working (conn w))) = 0%nat)) as [Hz|]; [|lia].
      apply map_size_empty_inv in Hz. rewrite Hz, lookup_empty in Hx0. done. }
    destruct st0 as [[]|]; cbn [fst snd delete_from insert_or_replace_missing
                               insert_or_replace_retry tokens];
      rewrite ?map_size_delete, ?Hx0; cbn [Init.Nat.pred]; lia.
Qed.

(** X13. The counts the first pass returns account for the source table:
    its size after the pass plus the number of wallets reported moved to
    the missing table plus the number reported moved to the retry table is
    its size before the pass. *)
Theorem first_pass_counts_add_up w :
  let run := process_Wallets_table AIRDROP_TABLE false w in
  (size (tokens (working (conn run.2))) + run.1.1 + run.1.2
   = size (tokens (working (conn w))))%nat.
Proof.
  cbn zeta. rewrite process_Wallets_table_run.
  cbn [fst snd conn working select_wallet_balance].
  rewrite (first_pass_loop_size _ (0%nat, 0%nat) w).
  - cbn [fst snd]. lia.
  - apply NoDup_fst_map_to_list.
  - intros Wallet. by rewrite key_in_map_to_list.
Qed.

(** *** [second_pass=True] *)

Lemma forced_pass_loop rows counts w :
  NoDup rows.*1 ->
  let body := wallets_table_body AIRDROP_TABLE true in
  let run := for_rows body counts rows w in
  let seen := statuses_seen fst body counts rows w in
  length seen = length rows ∧
  run.1 = (counts.1 + count_status Absent seen + count_status Indeterminate seen,
           counts.2)%nat ∧
  retry_queue (working (conn run.2)) = retry_queue (working (conn w)) ∧
  (∀ other, other ∉ rows.*1 ->
     same_at other (working (conn w)) (working (conn run.2))) ∧
  (∀ i Wallet Bal st, rows !! i = Some (Wallet, Bal) -> seen !! i = Some st ->
     forced_pass_policy Wallet Bal st (working (conn w)) (working (conn run.2))).
Proof.
  cbn zeta. revert counts w.
  induction rows as [|[W0 B0] rest IH]; intros counts w Hnd.
  - cbn. destruct counts. repeat split; try done. cbn. f_equal; lia.
  - apply NoDup_cons in Hnd as [Hnotin Hnd]. cbn [for_rows statuses_seen fst].
    rewrite run_bind.
    pose proof (wallets_table_body_run AIRDROP_TABLE true counts W0 B0 w)
      as (_ & Hwork & Hcnt).
    set (step := wallets_table_body AIRDROP_TABLE true counts (W0, B0) w) in *.
    set (st0 := (has_trustline W0 w).1) in *. clearbody step st0.
    destruct (IH step.1 step.2 Hnd) as (Hlen & Hres & Hretry & Hframe & Hpol).
    assert (∀ other, W0 ≠ other ->
              same_at other (working (conn w)) (working (conn step.2))) as Hturn.
    { intros other Hne. rewrite Hwork.
      destruct st0 as [[]|]; [done| |]; by apply move_to_missing_other. }
    split; [cbn [length]; by rewrite Hlen|]. split.
    { rewrite Hres, Hcnt, !count_status_cons.
      destruct st0 as [[]|]; repeat case_decide; try done;
        cbn [fst snd]; f_equal; lia. }
    split.
    { rewrite Hretry, Hwork. by destruct st0 as [[]|]. }
    split.
    + intros other Hother. apply not_elem_of_cons in Hother as [Hne Hother].
      apply (same_at_trans _ _ (working (conn step.2))); [by apply Hturn|].
      by apply Hframe.
    + intros i Wallet Bal st Hrow Hseen. destruct i as [|i]; cbn in Hrow, Hseen.
      * injection Hrow as -> ->. injection Hseen as <-.
        destruct (Hframe Wallet Hnotin) as (Ht & Hm & _).
        unfold forced_pass_policy. rewrite Hwork in Ht, Hm.
        destruct st0 as [[]|].
        -- rewrite <- Hwork. by apply Hframe.
        -- rewrite <- Ht, <- Hm. cbn. by rewrite lookup_delete_eq, lookup_insert_eq.
        -- rewrite <- Ht, <- Hm. cbn. by rewrite lookup_delete_eq, lookup_insert_eq.
      * assert (W0 ≠ Wallet) as Hne.
        { intros ->. apply Hnotin. by eapply key_of_row. }
        specialize (Hpol i Wallet Bal st Hrow Hseen).
        unfold forced_pass_policy in *. destruct st as [[]|]; try done.
        by apply (same_at_trans _ _ (working (conn step.2))); [apply Hturn|].
Qed.

(** X14. Called on the source table with [second_pass=True], the pass
    never writes the retry table and returns [moved_retry = 0]: a wallet
    answered Indeterminate is treated as one answered Absent, it goes to
    the missing table with its balance, leaves the source table and is
    counted in [moved_missing]; a wallet answered Present keeps its row. *)
Theorem second_pass_flag_forces_missing w :
  let rows := map_to_list (tokens (working (conn w))) in
  let seen := statuses_seen fst (wallets_table_body AIRDROP_TABLE true)
                (0%nat, 0%nat) rows w in
  let run := process_Wallets_table AIRDROP_TABLE true w in
  let db := working (conn w) in
  let db' := working (conn run.2) in
  retry_queue db' = retry_queue db ∧
  run.1 = (count_status Absent seen + count_status Indeterminate seen, 0)%nat ∧
  length seen = length rows ∧
  (∀ i Wallet Bal st, rows !! i = Some (Wallet, Bal) -> seen !! i = Some st ->
     match st with
     | Some true => tokens db' !! Wallet = Some Bal
     | Some false | None =>
         tokens db' !! Wallet = None ∧ tokens_missing_tl db' !! Wallet = Some Bal
     end).
Proof.
  cbn zeta. rewrite process_Wallets_table_run.
  cbn [fst snd conn working select_wallet_balance].
  pose proof (NoDup_fst_map_to_list (tokens (working (conn w)))) as Hnd.
  destruct (forced_pass_loop _ (0%nat, 0%nat) w Hnd) as (Hlen & Hres & Hretry & _ & Hpol).
  split; [done|]. split; [by rewrite Hres|]. split; [done|].
  intros i Wallet Bal st Hrow Hseen. specialize (Hpol i Wallet Bal st Hrow Hseen).
  destruct st as [[]|]; try done.
  destruct Hpol as (<- & _). apply elem_of_map_to_list. by eapply list_elem_of_lookup_2.
Qed.

(** X15. When [main] returns, everything is committed: what the file
    holds is what the connection saw last, the tables as the last pass
    that ran left them, so [conn.close()] discards nothing. *)
Theorem main_commits_everything w :
  let w1 := mkWorld (net w) (mkConn (working (conn w)) (working (conn w)))
              (trace w ++ [Logged INFO FirstPassStart]) in
  let p1 := process_Wallets_table AIRDROP_TABLE false w1 in
  let v1 := mkWorld (net p1.2) (conn p1.2)
              ((trace p1.2 ++ [Logged INFO (FirstPassDone p1.1.1 p1.1.2)])
                 ++ [Logged INFO SecondPassStart]) in
  committed (conn (main w).2) = working (conn (main w).2) ∧
  working (conn (main w).2) =
    if (0 <? p1.1.2)%nat
    then working (conn (process_retry_queue v1).2)
    else working (conn p1.2).
Proof.
  cbn zeta. destruct (main_tables w) as [_ ->].
  destruct (0 <? _)%nat.
  - split; [|done]. by rewrite process_retry_queue_run.
  - split; [|done]. by rewrite process_Wallets_table_run.
Qed.

(** X8. When the first pass moves no wallet to the retry table, [main]
    does not run the second pass: after the first pass it only closes the
    connection and writes its last log line, so nothing is requested and
    nobody is classified after the first pass; a wallet that is not in the
    source table is not classified at all, whatever the retry table holds
    for it; and the retry table is after [main] exactly as it was
    before. *)
Theorem stale_retry_rows_stay w :
  (main_first_pass w).1.2 = 0%nat ->
  main w = (close ≫= fun _ => log INFO AllDone) (main_first_pass w).2 ∧
  trace (main w).2 = trace (main_first_pass w).2 ++ [Logged INFO AllDone] ∧
  calls_of (trace (main w).2) = calls_of (trace (main_first_pass w).2) ∧
  (∀ W, tokens (working (conn w)) !! W = None ->
     fetches_of W (trace (main w).2) = fetches_of W (trace w)) ∧
  retry_queue (working (conn (main w).2)) = retry_queue (working (conn w)).
Proof.
  intros Hzero.
  assert (main w = (close ≫= fun _ => log INFO AllDone) (main_first_pass w).2)
    as Hmain.
  { rewrite main_run. cbn zeta. by rewrite Hzero. }
  assert (trace (main w).2 = trace (main_first_pass w).2 ++ [Logged INFO AllDone])
    as Htrace.
  { rewrite Hmain, run_bind. done. }
  split; [done|]. split; [done|]. split.
  { rewrite Htrace, calls_of_app. calls_simpl. by rewrite app_nil_r. }
  split.
  - intros W Hout. rewrite Htrace, fetches_of_snoc, Nat.add_0_r.
    rewrite main_first_pass_run. cbn [snd trace].
    rewrite fetches_of_snoc, Nat.add_0_r.
    rewrite process_Wallets_table_run. cbn [snd trace conn working select_wallet_balance].
    destruct (for_rows_fetches (wallets_table_body AIRDROP_TABLE false) W
                (map_to_list (tokens (working (conn w)))) (0%nat, 0%nat)
                (mkWorld (net w) (mkConn (working (conn w)) (working (conn w)))
                   (trace w ++ [Logged INFO FirstPassStart])))
      as [_ Heq].
    { intros. apply wallets_table_body_fetches. }
    { apply NoDup_fst_map_to_list. }
    rewrite Heq.
    + cbn [trace]. by rewrite fetches_of_snoc, Nat.add_0_r.
    + intros Hin. apply key_in_map_to_list in Hin as [x Hx]. congruence.
  - destruct (main_tables w) as [Hcnt ->]. rewrite Hcnt in Hzero.
    set (w1 := mkWorld _ _ (trace w ++ [Logged INFO FirstPassStart])) in *.
    rewrite Hzero. cbn [Nat.ltb Nat.leb].
    by rewrite (first_pass_retry_unchanged w1 Hzero).
Qed.

End More.

(** ** Concrete runs of the further properties *)

(** A ledger that answers at once. *)
Lemma first_node_success_witness :
  @request unit bare_ledger "https://xrplcluster.com/" "W2" tt = (Replied true ∅, tt) ∧
  @fetch_trustlines_with_failover unit bare_ledger "W2" (fresh_world scenario_db) =
    (Some [],
     mkWorld tt (mkConn scenario_db scenario_db)
       [Logged INFO (TryingNode "W2" "https://xrplcluster.com/");
        Requested "https://xrplcluster.com/" "W2" (Replied true ∅)]).
Proof.
  split; [reflexivity|].
  exact (@first_node_success unit bare_ledger "W2" (fresh_world scenario_db) ∅ tt
           eq_refl).
Defined.

(** A ledger whose first two requests raise. *)
Lemma failover_to_second_node_witness :
  let w0 := mkWorld 0%nat (mkConn scenario_db scenario_db) [] in
  let run := @fetch_trustlines_with_failover nat flaky_ledger "W1" w0 in
  @request nat flaky_ledger "https://xrplcluster.com/" "W1" 0%nat = (Raised, 1%nat) ∧
  run.1 = Some [matching_line] ∧
  net run.2 = 3%nat ∧
  sleeps_of (events_since w0 run.2) = [2 # 1; 4 # 1].
Proof.
  cbn zeta. split; [reflexivity|].
  destruct (@failover_to_second_node nat flaky_ledger "W1"
              (mkWorld 0%nat (mkConn scenario_db scenario_db) [])
              Raised 1%nat Raised 2%nat {[ "lines" := [matching_line] ]} 3%nat
              eq_refl eq_refl eq_refl eq_refl eq_refl)
    as (Hres & Hnet & _ & _ & Hsleeps).
  split; [exact Hres|]. split; [exact Hnet|exact Hsleeps].
Defined.

(** W7 has a row in the missing table and none in the source table. *)
Lemma missing_table_only_grows_witness :
  is_Some (tokens_missing_tl with_missing_db !! "W7") ∧
  is_Some (tokens_missing_tl
             (working (conn (@main unit scenario_ledger (fresh_world with_missing_db)).2))
           !! "W7").
Proof.
  assert (is_Some (tokens_missing_tl
            (working (conn (fresh_world with_missing_db))) !! "W7")) as Hin.
  { exists (9 # 1). vm_compute. reflexivity. }
  split; [exact Hin|].
  exact (proj2 (proj2 (@missing_table_only_grows unit scenario_ledger
                         (fresh_world with_missing_db) "W7" Hin))).
Defined.

(** W1 is answered Present, so nothing goes to the retry table and W3
    waits on, unclassified. *)
Lemma stale_retry_rows_stay_witness :
  let w0 := fresh_world stale_retry_db in
  (@main_first_pass unit scenario_ledger w0).1.2 = 0%nat ∧
  tokens (working (conn w0)) !! "W3" = None ∧
  fetches_of "W3" (trace (@main unit scenario_ledger w0).2) = 0%nat ∧
  retry_queue (working (conn (@main unit scenario_ledger w0).2))
    = retry_queue stale_retry_db.
Proof.
  cbn zeta.
  assert ((@main_first_pass unit scenario_ledger (fresh_world stale_retry_db)).1.2
          = 0%nat) as Hzero by (vm_compute; reflexivity).
  assert (tokens (working (conn (fresh_world stale_retry_db))) !! "W3" = None) as Hout
    by (vm_compute; reflexivity).
  destruct (@stale_retry_rows_stay unit scenario_ledger (fresh_world stale_retry_db) Hzero)
    as (_ & _ & _ & Hfetch & Hretry).
  split; [exact Hzero|]. split; [exact Hout|]. split; [exact (Hfetch "W3" Hout)|].
  exact Hretry.
Defined.

(** An empty source table and a row in the retry table. *)
Lemma main_on_empty_source_witness :
  tokens only_retry_db = ∅ ∧
  @main unit dead_ledger (fresh_world only_retry_db) =
    (tt, mkWorld tt (mkConn only_retry_db only_retry_db)
           [Logged INFO FirstPassStart;
            Logged INFO (FirstPassDone 0 0);
            Logged INFO AllDone]).
Proof.
  split; [reflexivity|].
  exact (@main_on_empty_source unit dead_ledger (fresh_world only_retry_db) eq_refl).
Defined.

(** W2 with balance 200 and a ledger that knows no trustline. *)
Lemma balance_carried_to_missing_witness :
  let db := working (conn (@main unit bare_ledger (fresh_world scenario_db)).2) in
  residency scenario_db "W2" = [AIRDROP_TABLE] ∧
  tokens scenario_db !! "W2" = Some (200 # 1) ∧
  retry_queue db !! "W2" = None ∧
  (tokens db !! "W2" = Some (200 # 1) ∧ tokens_missing_tl db !! "W2" = None ∨
   tokens db !! "W2" = None ∧ tokens_missing_tl db !! "W2" = Some (200 # 1) ∨
   tokens db !! "W2" = None ∧ tokens_missing_tl db !! "W2" = None).
Proof.
  cbn zeta.
  assert (residency (working (conn (fresh_world scenario_db))) "W2" = [AIRDROP_TABLE])
    as Hres by (vm_compute; reflexivity).
  assert (tokens (working (conn (fresh_world scenario_db))) !! "W2" = Some (200 # 1))
    as Hin by (vm_compute; reflexivity).
  split; [exact Hres|]. split; [exact Hin|].
  exact (@balance_carried_to_missing unit bare_ledger (fresh_world scenario_db)
           "W2" (200 # 1) Hres Hin).
Defined.
